(** * geoai.js: the task-classifier pipeline and the box-drawing script

    A shallow embedding of the four Python scripts of the repository
    ([task-classifier/data/prepare_data.py], [task-classifier/model/train.py],
    [task-classifier/model/predict.py], [scripts/draw_boxes.py]) and the
    properties their specification states about them.

    Conventions.
    - A Python [str] is a Rocq [string]; a character is a code point below 256.
    - A Python [float] is a binary64 value of [SpecFloat], computed with the
      IEEE operations of that library; torch tensors of logits are idealised
      as lists of real numbers.
    - Side effects (logging, printing, file writes, drawing) are recorded in
      an explicit trace of events, and a run ends by returning or by raising. *)

From Stdlib Require Import ZArith QArith Qabs Qround Reals Lra Lia.
From Stdlib Require Import Ascii String.
From Stdlib Require Import Floats.SpecFloat.
From stdpp Require Import base decidable list strings pretty.

Local Open Scope string_scope.
Local Open Scope list_scope.

(** ** Python values shared by the scripts *)

Module Py.

(** Exceptions the modelled code can raise. *)
Inductive exn :=
| KeyError
| NameError (name : string)
| ValueError
| OverflowError
| RuntimeError.

(** How a call ends. *)
Inductive status :=
| Returned
| Raised (e : exn).

(** *** Strings *)

Definition code (c : ascii) : N := N_of_ascii c.

(** [str.isspace] on one character, which is also what [\s] matches in a
    [str] pattern: TAB..CR, FS..US, SPACE, NEL and NBSP. *)
Definition is_space (c : ascii) : bool :=
  let n := code c in
  ((9 <=? n) && (n <=? 13) || (28 <=? n) && (n <=? 32)
   || (n =? 133) || (n =? 160))%N.

(** [str.lower] on one character: A..Z and the Latin-1 capitals. *)
Definition lower_char (c : ascii) : ascii :=
  let n := code c in
  if ((65 <=? n) && (n <=? 90)
      || (192 <=? n) && (n <=? 222) && negb (n =? 215))%N
  then ascii_of_N (n + 32) else c.

Fixpoint lower (s : string) : string :=
  match s with
  | EmptyString => EmptyString
  | String c r => String (lower_char c) (lower r)
  end.

Fixpoint lstrip (s : string) : string :=
  match s with
  | EmptyString => EmptyString
  | String c r => if is_space c then lstrip r else s
  end.

Fixpoint rstrip (s : string) : string :=
  match s with
  | EmptyString => EmptyString
  | String c r =>
      match rstrip r with
      | EmptyString => if is_space c then EmptyString else String c EmptyString
      | r' => String c r'
      end
  end.

(** [s.strip()] *)
Definition strip (s : string) : string := rstrip (lstrip s).

(** [re.sub(r'\s+', ' ', s)]: every maximal run of whitespace becomes one
    space. [in_run] tells that the previous character was whitespace. *)
Fixpoint sub_spaces (in_run : bool) (s : string) : string :=
  match s with
  | EmptyString => EmptyString
  | String c r =>
      if is_space c
      then if in_run then sub_spaces true r
           else String " " (sub_spaces true r)
      else String c (sub_spaces false r)
  end.

Definition re_sub_spaces (s : string) : string := sub_spaces false s.

Definition starts_space (s : string) : bool :=
  match s with
  | String c _ => is_space c
  | EmptyString => false
  end.

(** [s.split()]: the maximal runs of characters that are not whitespace. *)
Fixpoint words (s : string) : list string :=
  match s with
  | EmptyString => []
  | String c r =>
      if is_space c then words r
      else match r with
           | EmptyString => [String c EmptyString]
           | String c' _ =>
               if is_space c' then String c EmptyString :: words r
               else match words r with
                    | w :: ws => String c w :: ws
                    | [] => [String c EmptyString]
                    end
           end
  end.

(** A word: not empty, and without whitespace. *)
Fixpoint no_space (s : string) : bool :=
  match s with
  | EmptyString => true
  | String c r => negb (is_space c) && no_space r
  end.

Definition is_word (w : string) : bool :=
  match w with
  | EmptyString => false
  | _ => no_space w
  end.


(** *** Lists *)

(** [x in l] *)
Definition contains (x : string) (l : list string) : bool :=
  bool_decide (x ∈ l).

(** [l.index(x)]: the first position of [x]; [ValueError] when absent. *)
Fixpoint index (x : string) (l : list string) : option nat :=
  match l with
  | [] => None
  | y :: r => if decide (x = y) then Some 0 else S <$> index x r
  end.

(** The bound a slice index denotes in a list of [len] elements:
    negative indices count from the end, and both ends are clamped. *)
Definition slice_bound (len : nat) (n : Z) : nat :=
  if (n <? 0)%Z then Z.to_nat (Z.max 0 (Z.of_nat len + n))
  else Z.to_nat (Z.min n (Z.of_nat len)).

(** [l[:n]] and [l[n:]] *)
Definition slice_to {A} (l : list A) (n : Z) : list A :=
  take (slice_bound (length l) n) l.
Definition slice_from {A} (l : list A) (n : Z) : list A :=
  drop (slice_bound (length l) n) l.

(** *** Floats (binary64) *)

Definition prec : Z := 53.
Definition emax : Z := 1024.

(** [float(n)] for an integer [n], rounding to nearest even. *)
Definition float_of_int (n : Z) : spec_float :=
  binary_normalize prec emax n 0 false.

Definition fmul : spec_float -> spec_float -> spec_float := SFmul prec emax.
Definition fsub : spec_float -> spec_float -> spec_float := SFsub prec emax.

(** [int(f)]: truncation toward zero; [ValueError] on NaN and
    [OverflowError] on an infinity. *)
Definition int_of_float (f : spec_float) : exn + Z :=
  match f with
  | S754_zero _ => inr 0%Z
  | S754_infinity _ => inl OverflowError
  | S754_nan => inl ValueError
  | S754_finite s m e => inr (cond_Zopp s (Z.shiftl (Zpos m) e))
  end.

(** The rational a finite float denotes. *)
Definition float_value (f : spec_float) : option Q :=
  match f with
  | S754_zero _ => Some 0%Q
  | S754_finite s m e =>
      Some (match e with
            | Zneg p => Qmake (cond_Zopp s (Zpos m)) (2 ^ p)
            | _ => inject_Z (cond_Zopp s (Zpos m * 2 ^ e))
            end)
  | _ => None
  end.

(** Whether [f] is the binary64 value a decimal literal of value [d]
    denotes: a valid float within half a unit in the last place of [d]. *)
Definition is_double_of (f : spec_float) (d : Q) : bool :=
  match f, float_value f with
  | S754_finite _ _ e, Some v =>
      valid_binary prec emax f
      && Qle_bool (Qabs (v - d) * 2)
                  (match e with
                   | Zneg p => Qmake 1 (2 ^ p)
                   | _ => inject_Z (2 ^ e)
                   end)
  | _, _ => false
  end.

End Py.

(** ** [task-classifier/data/prepare_data.py] *)

Module PrepareData.
Import Py.

(** A raw query record; either field may be missing from the JSON object. *)
Record raw_item := RawItem { task : option string; query : option string }.

(** A processed record, [{"text": ..., "label": ...}]. *)
Record record := Record_ { text : string; label : nat }.

(** The configuration entries [prepare_data] reads:
    [config["training"]["seed"]] and [config["data"]["train_split"]]. *)
Record config := Config { seed : Z; train_split : spec_float }.

(** The generator behind the [random] module: [random.seed(a)] builds a
    state from an integer and [_randbelow(n)] draws a number below [n]. *)
Class Rng (G : Type) := {
  rng_seed : Z -> G;
  randbelow : G -> nat -> nat * G;
  randbelow_lt : forall g n, 0 < n -> (randbelow g n).1 < n
}.

(** A small linear congruential generator, to run the model on examples. *)
Definition lcg : Rng nat := {|
  rng_seed a := Z.to_nat (Z.abs a) `mod` 16;
  randbelow g n := (g `mod` n, (5 * g + 3) `mod` 16);
  randbelow_lt g n Hn := Nat.mod_upper_bound g n (proj2 (Nat.neq_0_lt_0 n) Hn)
|}.

Inductive out_file := TrainJson | TestJson.

Definition out_file_eqb (f f' : out_file) : bool :=
  match f, f' with
  | TrainJson, TrainJson | TestJson, TestJson => true
  | _, _ => false
  end.

Inductive event :=
| LogInfo (msg : string)
| LogError (msg : string)
| MakeDirs (dir : string)
| Print (item : raw_item)
| Write (dir : string) (f : out_file) (content : list record).

(** What a call of [prepare_data] leaves behind. *)
Record outcome (G : Type) := Outcome {
  trace : list event;
  result : status;
  rng : G
}.
Arguments Outcome {G} _ _ _.
Arguments trace {G} _.
Arguments result {G} _.
Arguments rng {G} _.

(** [clean_text] *)
Definition clean_text (text : string) : string :=
  let text := re_sub_spaces (strip text) in
  lower text.

(** One iteration of the loop over [raw_data]. *)
Inductive step :=
| Item (r : record)
| Abort
| Fail (e : exn).

Definition process_item (task_labels : list string) (item : raw_item) : step :=
  let task_type := default "other" (task item) in
  let label_idx :=
    if contains task_type task_labels then
      match index task_type task_labels with
      | Some i => inr (Some i)
      | None => inl ValueError
      end
    else if negb (contains "other" task_labels) then inr None
    else match index "other" task_labels with
         | Some i => inr (Some i)
         | None => inl ValueError
         end in
  match label_idx with
  | inl e => Fail e
  | inr None => Abort
  | inr (Some label_idx) =>
      match query item with
      | None => Fail KeyError
      | Some q => Item {| text := clean_text q; label := label_idx |}
      end
  end.

Inductive loop_end :=
| Done (processed_data : list record)
| Aborted
| Failed (e : exn).

Fixpoint process_loop (task_labels : list string) (raw_data : list raw_item)
    (processed_data : list record) : list event * loop_end :=
  match raw_data with
  | [] => ([], Done processed_data)
  | item :: rest =>
      match process_item task_labels item with
      | Item r =>
          let '(tr, e) := process_loop task_labels rest (processed_data ++ [r]) in
          (Print item :: tr, e)
      | Abort =>
          ([Print item; LogError "'other' label not found in task_labels"],
           Aborted)
      | Fail e => ([Print item], Failed e)
      end
  end.

(** [x[i], x[j] = x[j], x[i]]; both indices are in range whenever
    [shuffle] swaps, by [randbelow_lt]. *)
Definition swap {A} (x : list A) (i j : nat) : list A :=
  match x !! i, x !! j with
  | Some xi, Some xj => <[j := xi]> (<[i := xj]> x)
  | _, _ => x
  end.

(** [random.shuffle]: for [i] from [len(x) - 1] down to [1], swap [x[i]]
    with [x[randbelow(i + 1)]]. *)
Fixpoint shuffle_from `{Rng G} {A} (i : nat) (x : list A) (g : G) : list A * G :=
  match i with
  | 0 => (x, g)
  | S i' =>
      let '(j, g') := randbelow g (S i) in
      shuffle_from i' (swap x i j) g'
  end.

Definition shuffle `{Rng G} {A} (x : list A) (g : G) : list A * G :=
  shuffle_from (length x - 1) x g.

(** [int(data_len * config["data"]["train_split"])] *)
Definition train_size_of (cfg : config) (data_len : nat) : exn + Z :=
  int_of_float (fmul (float_of_int (Z.of_nat data_len)) (train_split cfg)).

(** [prepare_data]. [g0] is the state of the [random] module at the call
    and [raw_file] the parsed content of [raw_data_path], if it exists. *)
Definition prepare_data `{Rng G} (g0 : G) (raw_data_path output_dir : string)
    (raw_file : option (list raw_item)) (cfg : config)
    (task_labels : list string) : outcome G :=
  let tr0 := [LogInfo "Starting data preparation"; MakeDirs output_dir] in
  match raw_file with
  | None =>
      Outcome (tr0 ++ [LogError ("Raw data file not found at " ++ raw_data_path)])
              Returned g0
  | Some raw_data =>
      match process_loop task_labels raw_data [] with
      | (tr1, Aborted) => Outcome (tr0 ++ tr1) Returned g0
      | (tr1, Failed e) => Outcome (tr0 ++ tr1) (Raised e) g0
      | (tr1, Done processed_data) =>
          let '(processed_data, g) := shuffle processed_data (rng_seed (seed cfg)) in
          let data_len := length processed_data in
          match train_size_of cfg data_len with
          | inl e => Outcome (tr0 ++ tr1) (Raised e) g
          | inr train_size =>
              let train_data := slice_to processed_data train_size in
              let test_data := slice_from processed_data train_size in
              Outcome (tr0 ++ tr1 ++ [Write output_dir TrainJson train_data;
                                      Write output_dir TestJson test_data])
                      (Raised (NameError "val_data")) g
          end
      end
  end.

Definition is_write (ev : event) : bool :=
  match ev with Write _ _ _ => true | _ => false end.

(** The end-to-end example of the specification, and a longer input. *)
Definition example_labels : list string := ["translate"; "other"].
Definition example_raw : list raw_item :=
  [RawItem (Some "translate") (Some "  Hello   World ")].
Definition example_cfg : config :=
  Config 42 (S754_finite false 7205759403792794 (-53)).   (* 0.8 *)
Definition sample_raw : list raw_item :=
  [RawItem (Some "translate") (Some "  Hello   World ");
   RawItem None (Some "Find  all ROADS");
   RawItem (Some "detect") (Some "count the trees ");
   RawItem (Some "other") (Some "x");
   RawItem (Some "translate") (Some "Bonjour")].

(** The records written to [f] during a run, if [f] was written. *)
Definition written (f : out_file) (tr : list event) : option (list record) :=
  last (omap (fun ev => match ev with
                        | Write _ f' content =>
                            if out_file_eqb f' f then Some content else None
                        | _ => None
                        end) tr).

(** [json.dump(data, f, indent=2)] on a list of processed records. *)
Definition hex_digit (n : N) : ascii :=
  if (n <? 10)%N then ascii_of_N (48 + n) else ascii_of_N (87 + n).

Definition dq : string := String (ascii_of_N 34) EmptyString.

Definition escape_char (c : ascii) : string :=
  let n := code c in
  if (n =? 34)%N then "\" ++ dq
  else if (n =? 92)%N then "\\"
  else if (n =? 10)%N then "\n"
  else if (n =? 13)%N then "\r"
  else if (n =? 9)%N then "\t"
  else if (n =? 12)%N then "\f"
  else if (n =? 8)%N then "\b"
  else if ((32 <=? n) && (n <=? 126))%N then String c EmptyString
  else "\u00" ++ String (hex_digit (n / 16)) (String (hex_digit (n mod 16)) EmptyString).

Fixpoint escape (s : string) : string :=
  match s with
  | EmptyString => EmptyString
  | String c r => escape_char c ++ escape r
  end.

Definition nl : string := String (ascii_of_N 10) EmptyString.

Definition dump_record (r : record) : string :=
  "  {" ++ nl
  ++ "    " ++ dq ++ "text" ++ dq ++ ": " ++ dq ++ escape (text r) ++ dq ++ "," ++ nl
  ++ "    " ++ dq ++ "label" ++ dq ++ ": " ++ pretty (label r) ++ nl
  ++ "  }".

Definition json_dump (data : list record) : string :=
  match data with
  | [] => "[]"
  | _ => "[" ++ nl ++ String.concat ("," ++ nl) (dump_record <$> data) ++ nl ++ "]"
  end.

End PrepareData.

(** ** [task-classifier/model/train.py] *)

Module Train.
Import Py.

(** The order in which [list(set(labels))] yields the elements of a set is
    left to the interpreter; what is known is that every element of
    [labels] comes out exactly once. *)
Class SetOrder (L : Type) := {
  list_of_set : list L -> list L;
  list_of_set_NoDup : forall l, NoDup (list_of_set l);
  list_of_set_elem : forall l x, x ∈ list_of_set l <-> x ∈ l
}.

(** The order of first occurrence is one such order. *)
Definition first_seen (L : Type) `{EqDecision L} : SetOrder L := {|
  list_of_set := remove_dups;
  list_of_set_NoDup := NoDup_remove_dups;
  list_of_set_elem := elem_of_remove_dups
|}.

(** A Python [dict]: keys in insertion order, one entry per key. *)
Definition dict (K V : Type) : Type := list (K * V).

Section Dict.
Context {K V : Type} `{EqDecision K}.

(** [d[k] = v] *)
Fixpoint dict_set (d : dict K V) (k : K) (v : V) : dict K V :=
  match d with
  | [] => [(k, v)]
  | (k', v') :: r =>
      if decide (k = k') then (k', v) :: r else (k', v') :: dict_set r k v
  end.

(** [d[k]], [None] standing for [KeyError] *)
Fixpoint dict_get (d : dict K V) (k : K) : option V :=
  match d with
  | [] => None
  | (k', v') :: r => if decide (k = k') then Some v' else dict_get r k
  end.

(** [{k: v for k, v in items}] *)
Definition dict_comp (items : list (K * V)) : dict K V :=
  fold_left (fun d kv => dict_set d kv.1 kv.2) items [].
End Dict.

(** One element of the training data file. *)
Record sample (L : Type) := Sample { text : string; label : L }.
Arguments Sample {L} _ _.
Arguments text {L} _.
Arguments label {L} _.

(** The fields of [TextClassificationDataset] before tokenization. *)
Record dataset := Dataset { texts : list string; labels : list nat }.

(** The content of [label_mapping.json]. *)
Record label_mapping (L : Type) := LabelMapping {
  label_to_id : dict L nat;
  id_to_label : dict string L
}.
Arguments LabelMapping {L} _ _.
Arguments label_to_id {L} _.
Arguments id_to_label {L} _.

(** What one epoch measures: the result of [train] and of [evaluate]. *)
Record epoch_result := EpochResult { train_loss : Q; accuracy : Q; f1 : Q }.

(** [best_f1] after one more epoch, and after several. *)
Definition better (best_f1 : Q) (r : epoch_result) : Q :=
  if Qlt_le_dec best_f1 (f1 r) then f1 r else best_f1.

Definition best_after (best_f1 : Q) (results : list epoch_result) : Q :=
  fold_left better results best_f1.

Inductive snapshot_dir := BestModel | FinalModel.

Inductive event (L : Type) :=
| LogLoaded (samples classes : nat) (unique_labels : list L)
| CreateModel (num_labels : nat)
| EpochStart (n : nat)
| EpochTrained (n : nat) (loss : Q)
| EpochValidated (n : nat) (acc f1 : Q)
| Scalar (tag : string) (value : Q) (step : nat)
| Save (dir : snapshot_dir) (mapping : label_mapping L)
| Completed (best_f1 : Q).
Arguments LogLoaded {L} _ _ _.
Arguments CreateModel {L} _.
Arguments EpochStart {L} _.
Arguments EpochTrained {L} _ _.
Arguments EpochValidated {L} _ _ _.
Arguments Scalar {L} _ _ _.
Arguments Save {L} _ _.
Arguments Completed {L} _.

Section Trainer.
Context {L : Type} `{EqDecision L} `{SetOrder L}.

(** [load_data] *)
Definition load_data (data : list (sample L))
    : exn + (dataset * dict L nat * list L) :=
  let texts := text <$> data in
  let labels := label <$> data in
  let unique_labels := list_of_set labels in
  let label_to_id := dict_comp (imap (fun i label => (label, i)) unique_labels) in
  match mapM (dict_get label_to_id) labels with
  | None => inl KeyError
  | Some label_ids => inr (Dataset texts label_ids, label_to_id, unique_labels)
  end.

(** The mapping [save_model] dumps to [label_mapping.json]. *)
Definition saved_mapping (label_to_id : dict L nat) : label_mapping L :=
  LabelMapping label_to_id
               (dict_comp ((fun kv => (pretty kv.2, kv.1)) <$> label_to_id)).

Definition save_model (output_dir : snapshot_dir) (label_to_id : dict L nat)
    : event L :=
  Save output_dir (saved_mapping label_to_id).

(** The body of the training loop for epoch number [epoch] (from 0). *)
Definition run_epoch (label_to_id : dict L nat) (epoch : nat) (best_f1 : Q)
    (r : epoch_result) : list (event L) * Q :=
  let log := [EpochStart (epoch + 1);
              EpochTrained (epoch + 1) (train_loss r);
              Scalar "Loss/train" (train_loss r) epoch;
              EpochValidated (epoch + 1) (accuracy r) (f1 r);
              Scalar "Accuracy/val" (accuracy r) epoch;
              Scalar "F1/val" (f1 r) epoch] in
  if Qlt_le_dec best_f1 (f1 r)
  then (log ++ [save_model BestModel label_to_id], f1 r)
  else (log, best_f1).

(** The training loop; [results] holds what each of the configured
    epochs measures. The events are kept epoch by epoch. *)
Fixpoint training_loop (label_to_id : dict L nat) (epoch : nat) (best_f1 : Q)
    (results : list epoch_result) : list (list (event L)) * Q :=
  match results with
  | [] => ([], best_f1)
  | r :: rest =>
      let '(evs, best_f1) := run_epoch label_to_id epoch best_f1 r in
      let '(later, best_f1) := training_loop label_to_id (S epoch) best_f1 rest in
      (evs :: later, best_f1)
  end.

(** [main], from loading the data on. *)
Record run := Run {
  setup : list (event L);
  epochs : list (list (event L));
  finish : list (event L);
  result : status
}.

Definition main (data : list (sample L)) (results : list epoch_result) : run :=
  match load_data data with
  | inl e => Run [] [] [] (Raised e)
  | inr (dataset, label_to_id, unique_labels) =>
      let num_classes := length unique_labels in
      let '(eps, best_f1) := training_loop label_to_id 0 0%Q results in
      Run [LogLoaded (length (labels dataset)) num_classes unique_labels;
           CreateModel num_classes]
          eps
          [save_model FinalModel label_to_id; Completed best_f1]
          Returned
  end.

Definition trace (r : run) : list (event L) :=
  setup r ++ mjoin (epochs r) ++ finish r.
End Trainer.

(** A small training file and the measurements of three epochs. *)
Definition sample_data : list (sample string) :=
  [Sample "find roads" "detect"; Sample "hola" "translate";
   Sample "count trees" "detect"].
Definition sample_results : list epoch_result :=
  [EpochResult (1 # 2) (1 # 2) (1 # 2); EpochResult (1 # 3) (1 # 2) (2 # 5);
   EpochResult (1 # 10) (4 # 5) (7 # 10)].

Definition is_save {L} (dir : snapshot_dir) (ev : event L) : bool :=
  match ev, dir with
  | Save BestModel _, BestModel | Save FinalModel _, FinalModel => true
  | _, _ => false
  end.

End Train.

(** ** [task-classifier/model/predict.py] *)

Module Predict.
Import Py.
Import Train (dict, dict_get, dict_set, dict_comp).

(** [int(k)] on a string: surrounding whitespace, an optional sign, then
    decimal digits, single underscores allowed between digits. *)
Definition digit_val (c : ascii) : option Z :=
  let n := code c in
  if ((48 <=? n) && (n <=? 57))%N then Some (Z.of_N (n - 48)) else None.

Fixpoint parse_digits (acc : Z) (after_digit : bool) (s : string) : option Z :=
  match s with
  | EmptyString => if after_digit then Some acc else None
  | String c r =>
      if (code c =? 95)%N
      then if after_digit then parse_digits acc false r else None
      else match digit_val c with
           | Some d => parse_digits (10 * acc + d) true r
           | None => None
           end
  end.

Definition py_int (s : string) : option Z :=
  match strip s with
  | String c r =>
      if (code c =? 43)%N then parse_digits 0 false r
      else if (code c =? 45)%N then Z.opp <$> parse_digits 0 false r
      else parse_digits 0 false (String c r)
  | EmptyString => None
  end.

(** [{int(k): v for k, v in mapping["id_to_label"].items()}] *)
Definition load_id_to_label (file : dict string string) : exn + dict Z string :=
  match mapM (fun kv => (fun k => (k, kv.2)) <$> py_int kv.1) file with
  | Some items => inr (dict_comp items)
  | None => inl ValueError
  end.

(** A loaded classifier: the forward pass of the model on a query, giving
    the row of logits, and the label table. *)
Record TaskClassifier := Classifier {
  model : string -> list R;
  id_to_label : dict Z string
}.

Record prediction := Prediction { task : string; confidence : R }.

Definition Rsum (l : list R) : R := fold_right Rplus 0%R l.

(** [torch.nn.functional.softmax] on one row *)
Definition softmax (logits : list R) : list R :=
  let total := Rsum (exp <$> logits) in
  (fun x => (exp x / total)%R) <$> logits.

(** [torch.argmax]: the first position that holds the largest value. *)
Fixpoint argmax_from (best_i : nat) (best : R) (i : nat) (l : list R) : nat :=
  match l with
  | [] => best_i
  | x :: r =>
      if Rlt_dec best x then argmax_from i x (S i) r
      else argmax_from best_i best (S i) r
  end.

Definition argmax (l : list R) : option nat :=
  match l with
  | [] => None
  | x :: r => Some (argmax_from 0 x 1 r)
  end.

(** [TaskClassifier.predict] *)
Definition predict (self : TaskClassifier) (query : string) : exn + prediction :=
  let logits := model self query in
  let probabilities := softmax logits in
  match argmax probabilities with
  | None => inl RuntimeError
  | Some predicted_class =>
      match probabilities !! predicted_class with
      | None => inl RuntimeError
      | Some confidence =>
          match dict_get (id_to_label self) (Z.of_nat predicted_class) with
          | None => inl KeyError
          | Some task => inr (Prediction task confidence)
          end
      end
  end.

(** A string of decimal digits. *)
Fixpoint digits_only (s : string) : bool :=
  match s with
  | EmptyString => true
  | String c r => bool_decide (is_Some (digit_val c)) && digits_only r
  end.

(** Fixed-point arithmetic to bound [exp] from below: squaring a numerator
    over [scale], rounded down. *)
Definition square_down (scale a : Z) : Z := (a * a / scale)%Z.

Definition fixed_scale : Z := 104857600000000000000000000.   (* 2^20 * 10^20 *)

End Predict.

(** ** [scripts/draw_boxes.py] *)

Module DrawBoxes.
Import Py.

Record model_output := ModelOutput {
  scores : list spec_float;
  boxes : list (list spec_float);
  labels : list string
}.

Inductive font := Arial16 | Default16.

Inductive draw_op :=
| Rectangle (xy : list spec_float) (outline : string) (width : Z)
| Text (position : spec_float * spec_float) (text : string) (fill : string)
       (f : font)
| SaveImage (path : string).

(** The integer nearest to [num * 2^e], ties to even. *)
Definition round_half_even (num : Z) (e : Z) : Z :=
  match e with
  | Zneg p =>
      let d := Zpos (2 ^ p) in
      let q := (num / d)%Z in
      match (2 * (num mod d) ?= d)%Z with
      | Lt => q
      | Gt => (q + 1)%Z
      | Eq => if Z.even q then q else (q + 1)%Z
      end
  | _ => (num * 2 ^ e)%Z
  end.

Definition two_digits (k : Z) : string :=
  pretty (k / 10)%Z ++ pretty (k mod 10)%Z.

(** [f"{x:.2f}"] *)
Definition format_2f (x : spec_float) : string :=
  match x with
  | S754_nan => "nan"
  | S754_infinity s => if s then "-inf" else "inf"
  | S754_zero s => if s then "-0.00" else "0.00"
  | S754_finite s m e =>
      let n := round_half_even (100 * Zpos m) e in
      (if s then "-" else "") ++ pretty (n / 100)%Z ++ "." ++ two_digits (n mod 100)
  end.

(** The loop over [zip(boxes, labels, scores)]. *)
Fixpoint draw_loop (f : font) (boxes : list (list spec_float))
    (labels : list string) (scores : list spec_float) : list draw_op * status :=
  match boxes, labels, scores with
  | box :: boxes, label :: labels, score :: scores =>
      match box with
      | [x_min; y_min; x_max; y_max] =>
          let label_text := (label ++ " (" ++ format_2f score ++ ")")%string in
          let text_position :=
            (fsub x_max (float_of_int 20), fsub y_max (float_of_int 20)) in
          let '(ops, st) := draw_loop f boxes labels scores in
          (Rectangle [x_min; y_min; x_max; y_max] "red" 3
           :: Text text_position label_text "yellow" f :: ops, st)
      | _ => ([], Raised ValueError)
      end
  | _, _, _ => ([], Returned)
  end.

(** The script from the drawing loop on, for any model output;
    [arial] tells whether [arial.ttf] could be loaded. *)
Definition draw (arial : bool) (out : model_output) (output_path : string)
    : list draw_op * status :=
  let f := if arial then Arial16 else Default16 in
  match draw_loop f (boxes out) (labels out) (scores out) with
  | (ops, Returned) => (ops ++ [SaveImage output_path], Returned)
  | (ops, st) => (ops, st)
  end.

(** The literals of the script. *)
Definition script_output : model_output :=
  ModelOutput
    [S754_finite false 5206634770989056 (-53);   (* 0.5780525803565979 *)
     S754_finite false 6870080973438976 (-54)]   (* 0.381366103887558 *)
    [[S754_finite false 7723740888563712 (-45);  (* 219.52191925048828 *)
      S754_finite false 8318465010040832 (-45);  (* 236.42499542236328 *)
      S754_finite false 8654775444832256 (-45);  (* 245.98351287841797 *)
      S754_finite false 4871796302020608 (-44)]; (* 276.92955780029297 *)
     [S754_finite false 7019588785012736 (-45);  (* 199.5087127685547 *)
      S754_finite false 7185902535180288 (-44);  (* 408.4712677001953 *)
      S754_finite false 8674410693132288 (-45);  (* 246.5415802001953 *)
      S754_finite false 8223106535522304 (-44)]] (* 467.4294891357422 *)
    ["tree"; "tree"].

Definition script_path : string :=
  "/Users/shoaib/code/geobase/geobase-ai.js/merged_with_boxes.png".

(** The values of the specification's example. *)
Definition example_box : list spec_float :=
  [S754_finite false 7722969673498624 (-45);   (* 219.5 *)
   S754_finite false 8317585561799885 (-45);   (* 236.4 *)
   S754_finite false 8655355533852672 (-45);   (* 246.0 *)
   S754_finite false 4871276315698790 (-44)].  (* 276.9 *)
Definition example_score : spec_float :=
  S754_finite false 5206161169240293 (-53).    (* 0.578 *)

Definition is_save_image (op : draw_op) : bool :=
  match op with SaveImage _ => true | _ => false end.

(** Whether [x - 20], computed in binary64, is exactly 20 below [x]. *)
Definition offset_is_20 (x : spec_float) : bool :=
  match float_value (fsub x (float_of_int 20)), float_value x with
  | Some p, Some v => Qeq_bool p (v - 20)
  | _, _ => false
  end.

End DrawBoxes.

(** * Properties *)

(** ** Strings *)

Module PyFacts.
Import Py.

Lemma words_cons_nonspace c r :
  is_space c = false -> words (String c r) <> [].
Proof.
  intros Hc. simpl. rewrite Hc.
  destruct r as [|c' r']; [done|].
  destruct (is_space c'); [done|]. by destruct (words _).
Qed.

Lemma rstrip_cons c r :
  rstrip (String c r) =
    match rstrip r with
    | EmptyString => if is_space c then EmptyString else String c EmptyString
    | _ => String c (rstrip r)
    end.
Proof. simpl. by destruct (rstrip r). Qed.

Lemma rstrip_nonspace c r :
  is_space c = false -> rstrip (String c r) = String c (rstrip r).
Proof. intros Hc. rewrite rstrip_cons, Hc. by destruct (rstrip r). Qed.

Lemma rstrip_cons_nonempty c r :
  rstrip r <> EmptyString -> rstrip (String c r) = String c (rstrip r).
Proof. intros Hr. rewrite rstrip_cons. by destruct (rstrip r). Qed.

Lemma sub_spaces_cons b c r :
  sub_spaces b (String c r) =
    if is_space c
    then if b then sub_spaces true r else String " " (sub_spaces true r)
    else String c (sub_spaces false r).
Proof. done. Qed.

Lemma rstrip_empty_words r : rstrip r = EmptyString <-> words r = [].
Proof.
  induction r as [|c r IH]; [done|].
  destruct (is_space c) eqn:Hc.
  - rewrite rstrip_cons, Hc. simpl words. rewrite Hc.
    rewrite <- IH. by destruct (rstrip r).
  - rewrite rstrip_nonspace by done. split; [done|].
    intros Hw. by apply words_cons_nonspace in Hw.
Qed.

Lemma words_step c r :
  is_space c = false ->
  String.concat " " (words (String c r)) =
    String c (match words r with
              | [] => EmptyString
              | ws => ((if starts_space r then " " else "") ++ String.concat " " ws)%string
              end).
Proof.
  intros Hc. simpl words. rewrite Hc.
  destruct r as [|c' r']; [done|].
  cbn [starts_space].
  destruct (is_space c') eqn:Hc'.
  - destruct (words (String c' r')) as [|w ws]; [done|]. done.
  - pose proof (words_cons_nonspace c' r' Hc') as Hne.
    destruct (words (String c' r')) as [|w ws]; [done|].
    simpl. by destruct ws.
Qed.

Lemma sub_spaces_rstrip b r :
  sub_spaces b (rstrip r) =
    match words r with
    | [] => EmptyString
    | ws => ((if starts_space r && negb b then " " else "") ++ String.concat " " ws)%string
    end.
Proof.
  revert b. induction r as [|c r IH]; intros b; [done|].
  destruct (is_space c) eqn:Hc.
  - cbn [starts_space]. rewrite Hc.
    assert (Hw : words (String c r) = words r) by (simpl; by rewrite Hc).
    rewrite Hw.
    destruct (decide (words r = [])) as [He|Hne].
    + rewrite He. apply rstrip_empty_words in He.
      by rewrite rstrip_cons, He, Hc.
    + rewrite rstrip_cons_nonempty by (by rewrite rstrip_empty_words).
      rewrite sub_spaces_cons, Hc. rewrite (IH true).
      destruct (words r) as [|w ws]; [done|].
      rewrite andb_false_r. by destruct b.
  - rewrite rstrip_nonspace by done. rewrite sub_spaces_cons, Hc.
    rewrite IH. pose proof (words_step c r Hc) as Hs.
    pose proof (words_cons_nonspace c r Hc) as Hne.
    cbn [starts_space]. rewrite Hc. simpl andb.
    destruct (words (String c r)) as [|w ws]; [done|].
    change ("" ++ String.concat " " (w :: ws))%string with (String.concat " " (w :: ws)).
    rewrite Hs. f_equal. rewrite andb_true_r. done.
Qed.

Lemma words_lstrip s : words (lstrip s) = words s.
Proof.
  induction s as [|c r IH]; [done|].
  cbn [lstrip]. destruct (is_space c) eqn:Hc; [|done].
  rewrite IH. simpl. by rewrite Hc.
Qed.

Lemma starts_space_lstrip s : starts_space (lstrip s) = false.
Proof.
  induction s as [|c r IH]; [done|].
  cbn [lstrip]. destruct (is_space c) eqn:Hc; [done|]. simpl. done.
Qed.

Lemma lower_app s t : lower (s ++ t)%string = (lower s ++ lower t)%string.
Proof. induction s as [|c s IH]; [done|]. simpl. by rewrite IH. Qed.

Lemma lower_concat ws :
  lower (String.concat " " ws) = String.concat " " (lower <$> ws).
Proof.
  induction ws as [|w ws IH]; [done|].
  destruct ws as [|w' ws]; [done|].
  change (String.concat " " (w :: w' :: ws))
    with (w ++ " " ++ String.concat " " (w' :: ws))%string.
  rewrite !lower_app, IH. done.
Qed.

Lemma words_are_words s : Forall (fun w => is_word w = true) (words s).
Proof.
  induction s as [|c r IH]; [by constructor|].
  simpl. destruct (is_space c) eqn:Hc; [done|].
  destruct r as [|c' r']; [constructor; [simpl; by rewrite Hc|done]|].
  destruct (is_space c') eqn:Hc'.
  - constructor; [simpl; by rewrite Hc|done].
  - destruct (words (String c' r')) as [|w ws]; [constructor; [simpl; by rewrite Hc|done]|].
    apply Forall_cons in IH as [Hw Hws]. constructor; [|done].
    destruct w; [done|]. simpl in *. by rewrite Hc.
Qed.

Lemma re_sub_strip s :
  re_sub_spaces (strip s) = String.concat " " (words s).
Proof.
  unfold re_sub_spaces, strip. rewrite sub_spaces_rstrip.
  rewrite words_lstrip, starts_space_lstrip. simpl.
  by destruct (words s).
Qed.
End PyFacts.

(** The float literals of the model are the doubles of the decimal
    literals of the scripts and of the specification. *)
Example literals_are_doubles :
  forallb (fun '(f, d) => Py.is_double_of f d)
    [(PrepareData.train_split PrepareData.example_cfg, 8 # 10);
     (DrawBoxes.example_score, 578 # 1000);
     (Py.float_of_int 20, 20 # 1)]
  && forallb (fun '(f, d) => Py.is_double_of f d)
       (zip (DrawBoxes.example_box) [2195 # 10; 2364 # 10; 2460 # 10; 2769 # 10])
  && forallb (fun '(f, d) => Py.is_double_of f d)
       (zip (DrawBoxes.scores DrawBoxes.script_output)
            [5780525803565979 # 10000000000000000;
             381366103887558 # 1000000000000000])
  && forallb (fun '(f, d) => Py.is_double_of f d)
       (zip (mjoin (DrawBoxes.boxes DrawBoxes.script_output))
            [21952191925048828 # 100000000000000;
             23642499542236328 # 100000000000000;
             24598351287841797 # 100000000000000;
             27692955780029297 # 100000000000000;
             1995087127685547 # 10000000000000;
             4084712677001953 # 10000000000000;
             2465415802001953 # 10000000000000;
             4674294891357422 # 10000000000000])
  = true.
Proof. by vm_compute. Qed.

(** [int(100 * 0.29)] is 28: the product is rounded to binary64 before it
    is truncated. *)
Example train_size_rounds_in_binary64 :
  PrepareData.train_size_of
    (PrepareData.Config 42 (S754_finite false 5224175567749775 (-54))) 100
  = inr 28%Z.
Proof. by vm_compute. Qed.

(** ** The data preparer *)

Module PrepareDataFacts.
Import Py PrepareData.

Lemma contains_true x l : contains x l = true <-> x ∈ l.
Proof. unfold contains. by rewrite bool_decide_eq_true. Qed.

Lemma contains_false x l : contains x l = false <-> x ∉ l.
Proof. unfold contains. by rewrite bool_decide_eq_false. Qed.

Lemma index_Some x l i :
  index x l = Some i ->
  l !! i = Some x /\ forall j, j < i -> l !! j <> Some x.
Proof.
  revert i. induction l as [|y r IH]; intros i; [done|].
  simpl. destruct (decide (x = y)) as [->|Hne].
  - intros [= <-]. split; [done|]. lia.
  - destruct (index x r) as [i'|] eqn:Hi; [|done].
    intros [= <-]. destruct (IH i' eq_refl) as [Hl Hfirst].
    split; [done|]. intros [|j] Hj; simpl.
    + congruence.
    + apply Hfirst. lia.
Qed.

Lemma index_elem x l : x ∈ l -> is_Some (index x l).
Proof.
  induction l as [|y r IH]; [by intros ?%elem_of_nil|].
  intros Hx. simpl. destruct (decide (x = y)); [by eexists|].
  apply elem_of_cons in Hx as [?|Hx]; [done|].
  destruct (IH Hx) as [i ->]. by eexists.
Qed.

Lemma index_lt x l i : index x l = Some i -> i < length l.
Proof. intros [Hl _]%index_Some. by eapply lookup_lt_Some. Qed.

(** The three cases of the label lookup. *)
Lemma process_item_known labels item :
  default "other" (task item) ∈ labels ->
  exists i, index (default "other" (task item)) labels = Some i /\
    process_item labels item =
      match query item with
      | Some q => Item {| text := clean_text q; label := i |}
      | None => Fail KeyError
      end.
Proof.
  intros Hin. destruct (index_elem _ _ Hin) as [i Hi]. exists i.
  split; [done|]. unfold process_item.
  apply contains_true in Hin. by rewrite Hin, Hi.
Qed.

Lemma process_item_fallback labels item :
  default "other" (task item) ∉ labels -> "other" ∈ labels ->
  exists i, index "other" labels = Some i /\
    process_item labels item =
      match query item with
      | Some q => Item {| text := clean_text q; label := i |}
      | None => Fail KeyError
      end.
Proof.
  intros Hnot Hin. destruct (index_elem _ _ Hin) as [i Hi]. exists i.
  split; [done|]. unfold process_item.
  apply contains_false in Hnot. apply contains_true in Hin.
  by rewrite Hnot, Hin, Hi.
Qed.

Lemma process_item_abort labels item :
  default "other" (task item) ∉ labels -> "other" ∉ labels ->
  process_item labels item = Abort.
Proof.
  intros Hnot Hno. unfold process_item.
  apply contains_false in Hnot. apply contains_false in Hno.
  by rewrite Hnot, Hno.
Qed.

Lemma process_item_label labels item r :
  process_item labels item = Item r -> label r < length labels.
Proof.
  unfold process_item.
  destruct (contains _ labels).
  - destruct (index _ labels) as [i|] eqn:Hi; [|done].
    destruct (query item); [|done]. intros [= <-]. simpl. by eapply index_lt.
  - destruct (negb _); [done|].
    destruct (index _ labels) as [i|] eqn:Hi; [|done].
    destruct (query item); [|done]. intros [= <-]. simpl. by eapply index_lt.
Qed.

Lemma process_item_Item_inv labels item r :
  process_item labels item = Item r ->
  exists q, query item = Some q /\ text r = clean_text q.
Proof.
  unfold process_item.
  destruct (contains _ labels).
  - destruct (index _ labels) as [i|]; [|done].
    destruct (query item) as [q|]; [|done]. intros [= <-]. by exists q.
  - destruct (negb _); [done|].
    destruct (index _ labels) as [i|]; [|done].
    destruct (query item) as [q|]; [|done]. intros [= <-]. by exists q.
Qed.


(** What the loop over the raw records ends with. *)
Lemma process_loop_Done labels raw acc tr processed :
  process_loop labels raw acc = (tr, Done processed) ->
  exists rs, processed = acc ++ rs /\ tr = Print <$> raw /\
    Forall2 (fun item r => process_item labels item = Item r) raw rs.
Proof.
  revert acc tr. induction raw as [|item rest IH]; intros acc tr; simpl.
  - intros [= <- <-]. exists []. by rewrite app_nil_r.
  - destruct (process_item labels item) as [r| |e] eqn:Hitem; [|done..].
    destruct (process_loop labels rest (acc ++ [r])) as [tr' e'] eqn:Hloop.
    intros [= <- ->]. destruct (IH _ _ Hloop) as (rs & -> & -> & Hall).
    exists (r :: rs). rewrite <- app_assoc.
    split; [done|]. split; [done|]. by constructor.
Qed.

Lemma process_loop_all labels raw rs acc :
  Forall2 (fun item r => process_item labels item = Item r) raw rs ->
  process_loop labels raw acc = (Print <$> raw, Done (acc ++ rs)).
Proof.
  intros Hall. revert acc.
  induction Hall as [|item r raw rs Hitem _ IH]; intros acc; simpl.
  - by rewrite app_nil_r.
  - rewrite Hitem, IH. by rewrite <- app_assoc.
Qed.

Lemma process_loop_no_write labels raw acc :
  Forall (fun ev => is_write ev = false) (process_loop labels raw acc).1.
Proof.
  revert acc. induction raw as [|item rest IH]; intros acc; simpl; [done|].
  destruct (process_item labels item) as [r| |e].
  - specialize (IH (acc ++ [r])).
    destruct (process_loop labels rest (acc ++ [r])) as [tr' e'].
    by constructor.
  - by repeat constructor.
  - by repeat constructor.
Qed.

Lemma process_loop_Abort labels raw acc item :
  item ∈ raw -> process_item labels item = Abort ->
  match (process_loop labels raw acc).2 with
  | Done _ => False
  | Aborted => True
  | Failed e => exists item', item' ∈ raw /\ process_item labels item' = Fail e
  end.
Proof.
  intros Hin Habort. revert acc.
  induction raw as [|item' rest IH]; intros acc; [by apply elem_of_nil in Hin|].
  simpl. destruct (process_item labels item') as [r| |e] eqn:Hitem'; simpl.
  - apply elem_of_cons in Hin as [->|Hin]; [congruence|].
    specialize (IH Hin (acc ++ [r])).
    destruct (process_loop labels rest (acc ++ [r])) as [tr' [p| |e]]; simpl in *;
      [done..|].
    destruct IH as (it & ? & ?). exists it. split; [by right|done].
  - done.
  - exists item'. split; [by left|done].
Qed.

Lemma written_no_write f tr :
  Forall (fun ev => is_write ev = false) tr -> written f tr = None.
Proof.
  intros Hall. unfold written.
  induction Hall as [|ev tr Hev _ IH]; [done|].
  simpl. by destruct ev.
Qed.

Lemma written_app_no_write f tr tr' :
  Forall (fun ev => is_write ev = false) tr -> written f (tr ++ tr') = written f tr'.
Proof.
  intros Hall. unfold written.
  induction Hall as [|ev tr Hev _ IH]; [done|].
  simpl. by destruct ev.
Qed.

Lemma slice_partition {A} (l : list A) n : slice_to l n ++ slice_from l n = l.
Proof. apply take_drop. Qed.

Lemma slice_bound_nonneg len n :
  (0 <= n)%Z -> slice_bound len n = Z.to_nat n `min` len.
Proof. intros Hn. unfold slice_bound. case Z.ltb_spec; lia. Qed.

Lemma slice_to_nonneg {A} (l : list A) n :
  (0 <= n)%Z -> slice_to l n = take (Z.to_nat n) l.
Proof.
  intros Hn. unfold slice_to. rewrite slice_bound_nonneg by done.
  destruct (Nat.min_spec (Z.to_nat n) (length l)) as [[_ ->]|[Hle ->]]; [done|].
  by rewrite firstn_all, take_ge by lia.
Qed.

Lemma slice_from_nonneg {A} (l : list A) n :
  (0 <= n)%Z -> slice_from l n = drop (Z.to_nat n) l.
Proof.
  intros Hn. unfold slice_from. rewrite slice_bound_nonneg by done.
  destruct (Nat.min_spec (Z.to_nat n) (length l)) as [[_ ->]|[Hle ->]]; [done|].
  by rewrite !drop_ge by lia.
Qed.

(** [int] of a float that is not negative is the floor of its value. *)
Lemma int_of_float_floor f q :
  float_value f = Some q -> (0 <= q)%Q -> int_of_float f = inr (Qfloor q).
Proof.
  destruct f as [s|s| |s m e]; simpl; try done.
  - by intros [= <-].
  - intros [= <-] Hq. f_equal.
    destruct s.
    { exfalso. destruct e as [|p|p]; unfold Qle in Hq; simpl in Hq; lia. }
    cbn [cond_Zopp]. destruct e as [|p|p].
    + rewrite Qfloor_Z, Z.shiftl_mul_pow2 by lia. done.
    + rewrite Qfloor_Z, Z.shiftl_mul_pow2 by lia. done.
    + simpl Qfloor. rewrite Pos2Z.inj_pow.
      change (Z.neg p) with (- Z.pos p)%Z.
      rewrite Z.shiftl_opp_r, Z.shiftr_div_pow2 by lia. done.
Qed.

Section Shuffle.
Context `{Rng G} {A : Type}.

Lemma swap_Permutation (x : list A) i j : swap x i j ≡ₚ x.
Proof.
  unfold swap. destruct (x !! i) as [xi|] eqn:Hi; [|done].
  destruct (x !! j) as [xj|] eqn:Hj; [|done].
  by apply Permutation_insert_swap.
Qed.

Lemma shuffle_from_Permutation i (x : list A) (g : G) :
  (shuffle_from i x g).1 ≡ₚ x.
Proof.
  revert x g. induction i as [|i IH]; intros x g; [done|].
  cbn [shuffle_from]. destruct (randbelow g (S (S i))) as [j g'].
  rewrite IH. apply swap_Permutation.
Qed.

Lemma shuffle_Permutation (x : list A) (g : G) : (shuffle x g).1 ≡ₚ x.
Proof. apply shuffle_from_Permutation. Qed.
End Shuffle.


Lemma process_item_Fail labels item e :
  process_item labels item = Fail e -> query item = None /\ e = KeyError.
Proof.
  unfold process_item.
  destruct (contains _ labels) eqn:Hc.
  - apply contains_true, index_elem in Hc as [i ->].
    destruct (query item); [done|]. by intros [= <-].
  - destruct (contains "other" labels) eqn:Ho; simpl; [|done].
    apply contains_true, index_elem in Ho as [i ->].
    destruct (query item); [done|]. by intros [= <-].
Qed.

Lemma written_two f tr dir train test :
  Forall (fun ev => is_write ev = false) tr ->
  written f (tr ++ [Write dir TrainJson train; Write dir TestJson test]) =
    Some (match f with TrainJson => train | TestJson => test end).
Proof. intros Hall. rewrite written_app_no_write by done. by destruct f. Qed.

Section Runs.
Context `{Rng G}.
Implicit Types (g : G) (cfg : config) (labels : list string).


(** A run that gets through the loop and the split. *)
Lemma prepare_data_complete g path dir raw cfg labels processed n :
  (process_loop labels raw []).2 = Done processed ->
  train_size_of cfg (length raw) = inr n ->
  let sh := (shuffle processed (rng_seed (seed cfg))).1 in
  length processed = length raw /\
  prepare_data g path dir (Some raw) cfg labels =
    Outcome ([LogInfo "Starting data preparation"; MakeDirs dir]
             ++ (Print <$> raw)
             ++ [Write dir TrainJson (slice_to sh n);
                 Write dir TestJson (slice_from sh n)])
            (Raised (NameError "val_data"))
            (shuffle processed (rng_seed (seed cfg))).2.
Proof.
  intros Hloop Hn sh.
  destruct (process_loop labels raw []) as [tr e] eqn:Hl. simpl in Hloop.
  subst e. destruct (process_loop_Done _ _ _ _ _ Hl) as (rs & -> & -> & Hall).
  assert (Hlen : length ([] ++ rs) = length raw).
  { simpl. symmetry. by eapply Forall2_length. }
  split; [done|]. unfold prepare_data. rewrite Hl. subst sh.
  pose proof (shuffle_Permutation ([] ++ rs) (rng_seed (seed cfg))) as Hp.
  destruct (shuffle ([] ++ rs) (rng_seed (seed cfg))) as [sh g'].
  simpl in Hp. apply Permutation_length in Hp.
  simpl in Hlen.
  replace (length sh) with (length raw) by congruence.
  by rewrite Hn.
Qed.

(** Every run either writes nothing, or is a complete run. *)
Lemma prepare_data_inv g path dir raw_file cfg labels :
  let o := prepare_data g path dir raw_file cfg labels in
  (Forall (fun ev => is_write ev = false) (trace o)
   /\ result o <> Raised (NameError "val_data"))
  \/ (exists raw processed n,
        raw_file = Some raw
        /\ (process_loop labels raw []).2 = Done processed
        /\ train_size_of cfg (length raw) = inr n).
Proof.
  intros o. subst o. destruct raw_file as [raw|]; [|left; split; [|done]].
  2:{ simpl. by repeat constructor. }
  pose proof (process_loop_no_write labels raw []) as Hnw.
  destruct (process_loop labels raw []) as [tr1 e] eqn:Hl.
  destruct e as [processed| |e].
  - destruct (train_size_of cfg (length raw)) as [e|n] eqn:Hn.
    + left. unfold prepare_data. rewrite Hl.
      destruct (process_loop_Done _ _ _ _ _ Hl) as (rs & -> & -> & Hall).
      pose proof (shuffle_Permutation ([] ++ rs) (rng_seed (seed cfg))) as Hp.
      destruct (shuffle ([] ++ rs) (rng_seed (seed cfg))) as [sh g'].
      simpl in Hp. apply Permutation_length in Hp.
      apply Forall2_length in Hall.
      replace (length sh) with (length raw) by congruence.
      rewrite Hn. simpl. split.
      * by repeat constructor.
      * unfold train_size_of, int_of_float in Hn. intros [= ->].
        by destruct (fmul _ _).
    + right. exists raw, processed, n. by rewrite Hl.
  - left. unfold prepare_data. rewrite Hl. simpl. split; [|done].
    by repeat constructor.
  - left. unfold prepare_data. rewrite Hl. simpl. split.
    + by repeat constructor.
    + intros [= ->].
      assert (Hin : exists item, process_item labels item = Fail (NameError "val_data")).
      { clear Hnw. revert Hl. generalize (@nil record). revert tr1.
        induction raw as [|item rest IH]; intros tr1 acc; simpl; [done|].
        destruct (process_item labels item) as [r| |e] eqn:Hitem; [|done|].
        - destruct (process_loop labels rest (acc ++ [r])) as [tr' e'] eqn:Hl'.
          intros [= <- ->]. by eapply IH.
        - intros [= <- ->]. by exists item. }
      destruct Hin as [item [_ ?]%process_item_Fail]. done.
Qed.
End Runs.

End PrepareDataFacts.

Module PrepareDataSpec.
Import Py PrepareData PrepareDataFacts.

Section Claims.
Context `{Rng G}.
Implicit Types (g : G) (cfg : config) (labels : list string).

(** C2: two runs on the same input, configuration and label list give the
    same events, the same outcome and byte-identical [train.json] and
    [test.json], whatever state the random generator was in before. *)
Theorem prepare_data_deterministic g g' path dir raw_file cfg labels :
  let o := prepare_data g path dir raw_file cfg labels in
  let o' := prepare_data g' path dir raw_file cfg labels in
  trace o = trace o' /\ result o = result o' /\
  (forall f, written f (trace o) = written f (trace o')) /\
  (forall f, json_dump <$> written f (trace o) = json_dump <$> written f (trace o')).
Proof.
  intros o o'.
  assert (Htr : trace o = trace o' /\ result o = result o').
  { subst o o'. unfold prepare_data. destruct raw_file as [raw|]; [|done].
    destruct (process_loop labels raw []) as [tr1 [processed| |e]]; [|done..].
    destruct (shuffle processed (rng_seed (seed cfg))) as [sh g''].
    by destruct (train_size_of _ _). }
  destruct Htr as [Htr Hres].
  repeat split; try done; intros f; by rewrite Htr.
Qed.

(** C3: a task of the label list gets its index, any other task gets the
    index of "other" when the list has it, and otherwise the run returns
    with nothing written; so every record written to [train.json] or
    [test.json] has a label below [len(task_labels)]. *)
Theorem label_is_index_or_other g path dir raw_file cfg labels :
  let o := prepare_data g path dir raw_file cfg labels in
  (forall item q,
      query item = Some q ->
      let task_type := default "other" (task item) in
      (task_type ∈ labels ->
       exists i, index task_type labels = Some i /\ labels !! i = Some task_type /\
         process_item labels item = Item {| text := clean_text q; label := i |}) /\
      (task_type ∉ labels -> "other" ∈ labels ->
       exists i, index "other" labels = Some i /\ labels !! i = Some "other" /\
         process_item labels item = Item {| text := clean_text q; label := i |}) /\
      (task_type ∉ labels -> "other" ∉ labels ->
       process_item labels item = Abort)) /\
  (forall raw item,
      raw_file = Some raw -> item ∈ raw ->
      default "other" (task item) ∉ labels -> "other" ∉ labels ->
      written TrainJson (trace o) = None /\ written TestJson (trace o) = None /\
      ((forall item', item' ∈ raw -> is_Some (query item')) -> result o = Returned)) /\
  (forall f content r,
      written f (trace o) = Some content -> r ∈ content ->
      label r < length labels).
Proof.
  intros o. split; [|split].
  - intros item q Hq task_type. split; [|split].
    + intros Hin. destruct (process_item_known labels item Hin) as (i & Hi & Hitem).
      exists i. rewrite Hq in Hitem. split; [done|].
      split; [by apply index_Some in Hi as [? _]|done].
    + intros Hnot Hin.
      destruct (process_item_fallback labels item Hnot Hin) as (i & Hi & Hitem).
      exists i. rewrite Hq in Hitem. split; [done|].
      split; [by apply index_Some in Hi as [? _]|done].
    + apply process_item_abort.
  - intros raw item -> Hin Hnot Hno.
    pose proof (process_item_abort labels item Hnot Hno) as Habort.
    pose proof (process_loop_Abort labels raw [] item Hin Habort) as Hend.
    pose proof (process_loop_no_write labels raw []) as Hnw.
    subst o. unfold prepare_data.
    destruct (process_loop labels raw []) as [tr1 [processed| |e]];
      simpl in Hend, Hnw; [done|..]; cbn [trace result].
    + split; [|split; [|done]]; apply written_no_write;
        by repeat constructor.
    + split; [|split]; [apply written_no_write; by repeat constructor..|].
      intros Hq. destruct Hend as (item' & Hin' & [Hnone _]%process_item_Fail).
      destruct (Hq item' Hin') as [q' Hq']. congruence.
  - intros f content r Hw Hr.
    destruct (prepare_data_inv g path dir raw_file cfg labels)
      as [[Hnw _]|(raw & processed & n & -> & Hloop & Hn)].
    { fold o in Hnw. rewrite written_no_write in Hw by done. done. }
    destruct (prepare_data_complete g path dir raw cfg labels processed n Hloop Hn)
      as [_ Ho].
    fold o in Ho. rewrite Ho in Hw. cbn [trace] in Hw.
    rewrite app_assoc, written_two in Hw.
    2:{ apply Forall_app; split; [by repeat constructor|].
        apply Forall_fmap, Forall_true; done. }
    assert (Hsh : r ∈ (shuffle processed (rng_seed (seed cfg))).1).
    { rewrite <- (slice_partition _ n). apply elem_of_app.
      injection Hw as <-. destruct f; [by left|by right]. }
    rewrite shuffle_Permutation in Hsh.
    destruct (process_loop labels raw []) as [tr e] eqn:Hl. simpl in Hloop.
    subst e. destruct (process_loop_Done _ _ _ _ _ Hl) as (rs & -> & _ & Hall).
    simpl in Hsh. apply list_elem_of_lookup in Hsh as [k Hk].
    destruct (Forall2_lookup_r _ _ _ _ _ Hall Hk) as (item & _ & Hitem).
    by eapply process_item_label.
Qed.

(** C4: a run that gets through the loop writes the first
    [floor(L * train_split)] shuffled records to [train.json] and the
    others to [test.json]; the two files hold [L] records together and
    partition the processed records in shuffle order. *)
Theorem split_at_floor g path dir raw cfg labels processed q :
  (process_loop labels raw []).2 = Done processed ->
  float_value (fmul (float_of_int (Z.of_nat (length raw))) (train_split cfg)) = Some q ->
  (0 <= q)%Q ->
  let o := prepare_data g path dir (Some raw) cfg labels in
  let sh := (shuffle processed (rng_seed (seed cfg))).1 in
  let k := Z.to_nat (Qfloor q) in
  exists train test,
    written TrainJson (trace o) = Some train /\
    written TestJson (trace o) = Some test /\
    train = take k sh /\ test = drop k sh /\
    train ++ test = sh /\ sh ≡ₚ processed /\
    length train + length test = length raw.
Proof.
  intros Hloop Hq Hpos o sh k.
  pose proof (int_of_float_floor _ _ Hq Hpos) as Hn.
  destruct (prepare_data_complete g path dir raw cfg labels processed _ Hloop Hn)
    as [Hlen Ho].
  fold o sh in Ho.
  assert (Hfloor : (0 <= Qfloor q)%Z).
  { rewrite <- (Qfloor_Z 0). by apply Qfloor_resp_le. }
  exists (take k sh), (drop k sh).
  rewrite Ho. cbn [trace]. rewrite app_assoc, !written_two.
  2,3: apply Forall_app; split; [by repeat constructor|].
  2,3: apply Forall_fmap, Forall_true; done.
  rewrite slice_to_nonneg, slice_from_nonneg by done.
  repeat split; try done.
  - apply take_drop.
  - apply shuffle_Permutation.
  - rewrite <- length_app, take_drop. subst sh.
    by rewrite shuffle_Permutation.
Qed.

(** C9: a run that reaches the final logging statement has written
    [train.json] and then [test.json], complete, and raises [NameError]
    for [val_data]; a run that returns has written neither file. *)
Theorem final_log_raises_NameError g path dir raw_file cfg labels :
  let o := prepare_data g path dir raw_file cfg labels in
  (forall raw processed n,
      raw_file = Some raw ->
      (process_loop labels raw []).2 = Done processed ->
      train_size_of cfg (length raw) = inr n ->
      exists tr train test,
        trace o = tr ++ [Write dir TrainJson train; Write dir TestJson test] /\
        Forall (fun ev => is_write ev = false) tr /\
        train ++ test ≡ₚ processed /\
        result o = Raised (NameError "val_data")) /\
  (result o = Returned ->
   written TrainJson (trace o) = None /\ written TestJson (trace o) = None) /\
  (result o = Raised (NameError "val_data") <->
   is_Some (written TrainJson (trace o)) /\ is_Some (written TestJson (trace o))).
Proof.
  intros o.
  assert (Hcomplete : forall raw processed n,
      raw_file = Some raw ->
      (process_loop labels raw []).2 = Done processed ->
      train_size_of cfg (length raw) = inr n ->
      exists tr train test,
        trace o = tr ++ [Write dir TrainJson train; Write dir TestJson test] /\
        Forall (fun ev => is_write ev = false) tr /\
        train ++ test ≡ₚ processed /\
        result o = Raised (NameError "val_data")).
  { intros raw processed n -> Hloop Hn.
    destruct (prepare_data_complete g path dir raw cfg labels processed n Hloop Hn)
      as [_ Ho].
    fold o in Ho. rewrite Ho. cbn [trace result]. rewrite app_assoc.
    eexists _, _, _. split; [done|]. split; [|split; [|done]].
    - apply Forall_app; split; [by repeat constructor|].
      apply Forall_fmap, Forall_true; done.
    - rewrite slice_partition. apply shuffle_Permutation. }
  split; [done|].
  destruct (prepare_data_inv g path dir raw_file cfg labels)
    as [[Hnw Hres]|(raw & processed & n & Hraw & Hloop & Hn)].
  - fold o in Hnw, Hres. rewrite !written_no_write by done. split; [done|].
    split; [done|]. by intros [[? [=]] _].
  - destruct (Hcomplete raw processed n Hraw Hloop Hn)
      as (tr & train & test & -> & Hnw & _ & ->).
    rewrite !written_two by done. split; [done|]. split; [done|].
    intros _. split; by eexists.
Qed.

(** C10: a record without a "task" field is handled exactly as a record
    whose task is "other": with "other" in the label list it gets the
    index of "other" and the loop goes on to the next record. *)
Theorem missing_task_is_other labels item :
  task item = None ->
  process_item labels item =
    process_item labels {| task := Some "other"; query := query item |} /\
  ("other" ∈ labels ->
   exists i, index "other" labels = Some i /\ labels !! i = Some "other" /\
     (forall q, query item = Some q ->
        process_item labels item = Item {| text := clean_text q; label := i |} /\
        forall rest acc,
          process_loop labels (item :: rest) acc =
            (Print item :: (process_loop labels rest
                              (acc ++ [{| text := clean_text q; label := i |}])).1,
             (process_loop labels rest
                              (acc ++ [{| text := clean_text q; label := i |}])).2))).
Proof.
  intros Htask. split.
  { unfold process_item. by rewrite Htask. }
  intros Hin.
  destruct (process_item_known labels item) as (i & Hi & Hitem).
  { by rewrite Htask. }
  rewrite Htask in Hi. simpl in Hi. exists i. split; [done|].
  split; [by apply index_Some in Hi as [? _]|].
  intros q Hq. rewrite Hq in Hitem. split; [done|].
  intros rest acc. simpl. rewrite Hitem. by destruct (process_loop _ _ _).
Qed.

(** C5: [clean_text] gives the lowercased words of the query, joined by
    single spaces: leading and trailing whitespace is gone and every run
    of whitespace inside has become one space; the query
    "  Hello   World " with task "translate" becomes
    [{"text": "hello world", "label": 0}] before the shuffle. *)
Theorem clean_text_normalizes :
  (forall q, clean_text q = String.concat " " (lower <$> words q)) /\
  (forall q, Forall (fun w => is_word w = true) (words q)) /\
  process_loop example_labels example_raw [] =
    (Print <$> example_raw, Done [{| text := "hello world"; label := 0 |}]).
Proof.
  split; [|split].
  - intros q. unfold clean_text. by rewrite PyFacts.re_sub_strip, PyFacts.lower_concat.
  - apply PyFacts.words_are_words.
  - reflexivity.
Qed.
End Claims.

Lemma split_at_floor_witness :
  exists train test,
    written TrainJson (trace (prepare_data (H:=lcg) 0 "queries.json" "processed"
                                (Some sample_raw) example_cfg example_labels))
      = Some train /\
    written TestJson (trace (prepare_data (H:=lcg) 0 "queries.json" "processed"
                                (Some sample_raw) example_cfg example_labels))
      = Some test /\
    length train = 4 /\ length test = 1.
Proof.
  destruct (split_at_floor (H:=lcg) 0 "queries.json" "processed" sample_raw
              example_cfg example_labels
              [{| text := "hello world"; label := 0 |};
               {| text := "find all roads"; label := 1 |};
               {| text := "count the trees"; label := 1 |};
               {| text := "x"; label := 1 |};
               {| text := "bonjour"; label := 0 |}]
              (Qmake 4503599627370496 1125899906842624))
    as (train & test & Htrain & Htest & -> & -> & _).
  - reflexivity.
  - vm_compute. reflexivity.
  - unfold Qle. simpl. lia.
  - eexists; eexists. split; [exact Htrain|]. split; [exact Htest|].
    split; vm_compute; reflexivity.
Defined.

Lemma label_is_index_or_other_witness :
  process_item example_labels (RawItem (Some "detect") (Some "count the trees "))
    = Item {| text := "count the trees"; label := 1 |} /\
  written TrainJson (trace (prepare_data (H:=lcg) 0 "queries.json" "processed"
                              (Some sample_raw) example_cfg ["translate"])) = None /\
  label {| text := "x"; label := 1 |} < length example_labels.
Proof.
  destruct (label_is_index_or_other (H:=lcg) 0 "queries.json" "processed"
              (Some sample_raw) example_cfg example_labels) as (Hitem & _ & Hvalid).
  destruct (label_is_index_or_other (H:=lcg) 0 "queries.json" "processed"
              (Some sample_raw) example_cfg ["translate"]) as (_ & Habort & _).
  split; [|split].
  - destruct (Hitem (RawItem (Some "detect") (Some "count the trees "))
                "count the trees " eq_refl) as (_ & Hother & _).
    destruct Hother as (i & Hi & _ & ->).
    + simpl. intros Hin. by repeat (apply elem_of_cons in Hin as [?|Hin]; [done|]);
        apply elem_of_nil in Hin.
    + by right; left.
    + injection Hi as <-. reflexivity.
  - refine (proj1 (Habort sample_raw (RawItem None (Some "Find  all ROADS"))
                     eq_refl _ _ _)).
    + by right; left.
    + simpl. intros Hin. by repeat (apply elem_of_cons in Hin as [?|Hin]; [done|]);
        apply elem_of_nil in Hin.
    + intros Hin. by repeat (apply elem_of_cons in Hin as [?|Hin]; [done|]);
        apply elem_of_nil in Hin.
  - apply (Hvalid TrainJson
             [{| text := "count the trees"; label := 1 |};
              {| text := "x"; label := 1 |};
              {| text := "bonjour"; label := 0 |};
              {| text := "find all roads"; label := 1 |}]).
    + vm_compute. reflexivity.
    + by right; left.
Defined.

Lemma final_log_raises_NameError_witness :
  result (prepare_data (H:=lcg) 0 "queries.json" "processed"
            (Some sample_raw) example_cfg example_labels)
    = Raised (NameError "val_data") /\
  written TestJson (trace (prepare_data (H:=lcg) 0 "queries.json" "processed"
                             None example_cfg example_labels)) = None.
Proof.
  destruct (final_log_raises_NameError (H:=lcg) 0 "queries.json" "processed"
              (Some sample_raw) example_cfg example_labels) as (Hdone & _ & _).
  destruct (final_log_raises_NameError (H:=lcg) 0 "queries.json" "processed"
              None example_cfg example_labels) as (_ & Hret & _).
  split.
  - destruct (Hdone sample_raw
                [{| text := "hello world"; label := 0 |};
                 {| text := "find all roads"; label := 1 |};
                 {| text := "count the trees"; label := 1 |};
                 {| text := "x"; label := 1 |};
                 {| text := "bonjour"; label := 0 |}] 4%Z)
      as (tr & train & test & _ & _ & _ & Hres).
    + reflexivity.
    + reflexivity.
    + vm_compute. reflexivity.
    + exact Hres.
  - apply Hret. reflexivity.
Defined.

Lemma missing_task_is_other_witness :
  process_item example_labels (RawItem None (Some "Find  all ROADS"))
    = Item {| text := "find all roads"; label := 1 |}.
Proof.
  destruct (missing_task_is_other example_labels
              (RawItem None (Some "Find  all ROADS")) eq_refl) as [_ Hother].
  destruct Hother as (i & Hi & _ & Hq).
  - by right; left.
  - destruct (Hq "Find  all ROADS" eq_refl) as [-> _].
    injection Hi as <-. reflexivity.
Defined.
End PrepareDataSpec.


(** ** The trainer *)

Module TrainFacts.
Import Py Train.

Section DictFacts.
Context {K V : Type} `{EqDecision K}.
Implicit Types (d items : dict K V) (k : K) (v : V).

Lemma dict_get_elem d k v :
  NoDup d.*1 -> dict_get d k = Some v <-> (k, v) ∈ d.
Proof.
  induction d as [|[k' v'] d IH]; simpl.
  - intros _. split; [done|]. by intros ?%elem_of_nil.
  - intros [Hk' Hnd]%NoDup_cons. destruct (decide (k = k')) as [->|Hne].
    + split.
      * intros [= ->]. by left.
      * intros [[= ->]|Hin]%elem_of_cons; [done|].
        destruct Hk'. apply list_elem_of_fmap. by exists (k', v).
    + rewrite IH by done. split; [by right|].
      intros [[= -> ->]|Hin]%elem_of_cons; done.
Qed.

Lemma dict_set_fresh d k v : k ∉ d.*1 -> dict_set d k v = d ++ [(k, v)].
Proof.
  induction d as [|[k' v'] d IH]; simpl; [done|].
  intros [Hne Hk]%not_elem_of_cons.
  destruct (decide (k = k')); [done|]. by rewrite IH.
Qed.

Lemma dict_fold_NoDup items d :
  NoDup (d ++ items).*1 ->
  fold_left (fun d kv => dict_set d kv.1 kv.2) items d = d ++ items.
Proof.
  revert d. induction items as [|[k v] items IH]; intros d Hnd; simpl.
  - by rewrite app_nil_r.
  - rewrite dict_set_fresh.
    + rewrite IH; rewrite <- app_assoc; done.
    + rewrite fmap_app in Hnd. apply NoDup_app in Hnd as (_ & Hd & _).
      intros Hk. apply (Hd k Hk). by left.
Qed.

Lemma dict_comp_NoDup items : NoDup items.*1 -> dict_comp items = items.
Proof. intros Hnd. unfold dict_comp. by rewrite dict_fold_NoDup. Qed.
End DictFacts.

Section Enumerations.
Context {L : Type} `{EqDecision L}.
Implicit Types (u : list L).

Lemma enumerate_keys_from {B} (g : nat -> B) u :
  (imap (fun i label => (label, g i)) u).*1 = u.
Proof.
  revert g. induction u as [|x u IH]; intros g; [done|].
  rewrite imap_cons. simpl. f_equal. apply (IH (g ∘ S)).
Qed.

Lemma enumerate_keys u : (imap (fun i label => (label, i)) u).*1 = u.
Proof. apply (enumerate_keys_from (fun i => i)). Qed.

Lemma label_to_id_enumerate u :
  NoDup u ->
  dict_comp (imap (fun i label => (label, i)) u) = imap (fun i label => (label, i)) u.
Proof. intros Hnd. apply dict_comp_NoDup. by rewrite enumerate_keys. Qed.

Lemma dict_get_label_to_id u l i :
  NoDup u ->
  dict_get (imap (fun i label => (label, i)) u) l = Some i <-> u !! i = Some l.
Proof.
  intros Hnd. rewrite dict_get_elem by (by rewrite enumerate_keys).
  rewrite elem_of_lookup_imap. split.
  - by intros (j & y & [= -> ->] & Hy).
  - intros Hi. by exists i, l.
Qed.

Lemma str_keys u :
  (imap (fun i (label : L) => (pretty i, label)) u).*1 = pretty <$> seq 0 (length u).
Proof.
  rewrite fmap_imap. rewrite (imap_ext _ (fun i _ => pretty i)) by done.
  apply imap_seq_0.
Qed.

Lemma NoDup_str_keys u :
  NoDup (imap (fun i (label : L) => (pretty i, label)) u).*1.
Proof. rewrite str_keys. apply NoDup_fmap_2; [apply _|apply NoDup_seq]. Qed.

Lemma id_to_label_enumerate u :
  dict_comp ((fun kv : L * nat => (pretty kv.2, kv.1)) <$> imap (fun i label => (label, i)) u)
  = imap (fun i label => (pretty i, label)) u.
Proof.
  rewrite fmap_imap. rewrite (imap_ext _ (fun i label => (pretty i, label))) by done.
  apply dict_comp_NoDup, NoDup_str_keys.
Qed.

Lemma dict_get_id_to_label u k l :
  dict_get (imap (fun i label => (pretty i, label)) u) k = Some l
  <-> exists i, k = pretty i /\ u !! i = Some l.
Proof.
  rewrite dict_get_elem by apply NoDup_str_keys.
  rewrite elem_of_lookup_imap. split.
  - intros (i & y & [= -> ->] & Hy). by exists i.
  - intros (i & -> & Hi). by exists i, l.
Qed.
End Enumerations.


Section TrainerFacts.
Context {L : Type} `{EqDecision L} `{SetOrder L}.
Implicit Types (data : list (sample L)) (results : list epoch_result).
Implicit Types (l2i : dict L nat) (ev : event L).

(** [load_data] never raises: every label of the data is a key of
    [label_to_id]. *)
Lemma load_data_ok data :
  let u := list_of_set (label <$> data) in
  exists ids,
    load_data data = inr (Dataset (text <$> data) ids,
                          imap (fun i l => (l, i)) u, u) /\
    Forall2 (fun s id => u !! id = Some (label s)) data ids.
Proof.
  intros u. unfold load_data. fold u.
  rewrite label_to_id_enumerate by apply list_of_set_NoDup.
  destruct (mapM (dict_get (imap (fun i l => (l, i)) u)) (label <$> data))
    as [ids|] eqn:Hm.
  - exists ids. split; [done|]. apply mapM_Some_1 in Hm.
    apply Forall2_fmap_l in Hm. eapply Forall2_impl; [exact Hm|].
    intros s id Hid. by apply dict_get_label_to_id in Hid; [|apply list_of_set_NoDup].
  - apply mapM_None_1, Exists_exists in Hm as (l & Hl & Hnone).
    apply (list_of_set_elem _ l) in Hl. fold u in Hl.
    apply list_elem_of_lookup in Hl as [i Hi].
    apply dict_get_label_to_id in Hi; [|apply list_of_set_NoDup]. congruence.
Qed.

Lemma run_epoch_events l2i epoch best r ev :
  ev ∈ (run_epoch l2i epoch best r).1 ->
  is_save FinalModel ev = false /\
  (forall dir m, ev = Save dir m -> dir = BestModel /\ m = saved_mapping l2i).
Proof.
  unfold run_epoch, save_model. destruct (Qlt_le_dec best (f1 r)); simpl; intros Hev.
  all: repeat (apply elem_of_cons in Hev as [->|Hev]; [split; [done|]; by intros ?? [= <- <-]|]).
  all: by apply elem_of_nil in Hev.
Qed.

Lemma run_epoch_saves l2i epoch best r :
  (exists m, Save BestModel m ∈ (run_epoch l2i epoch best r).1) <-> (best < f1 r)%Q.
Proof.
  unfold run_epoch, save_model. destruct (Qlt_le_dec best (f1 r)) as [Hlt|Hle]; simpl.
  - split; [done|]. intros _. eexists. do 6 right. by left.
  - split.
    + intros [m Hin].
      repeat (apply elem_of_cons in Hin as [?|Hin]; [done|]). by apply elem_of_nil in Hin.
    + intros Hlt. exfalso. by apply (Qlt_not_le _ _ Hlt).
Qed.

(** The value of [best_f1] after the epochs that measured [results]. *)
Lemma training_loop_lookup l2i epoch best results e r :
  results !! e = Some r ->
  (training_loop l2i epoch best results).1 !! e =
    Some (run_epoch l2i (epoch + e) (best_after best (take e results)) r).1.
Proof.
  revert epoch best e. induction results as [|r' rest IH]; intros epoch best e; [done|].
  simpl. destruct (run_epoch l2i epoch best r') as [evs b] eqn:Hrun.
  specialize (IH (S epoch) b).
  destruct (training_loop l2i (S epoch) b rest) as [later b'].
  destruct e as [|e]; simpl.
  - intros [= ->]. by rewrite Nat.add_0_r, Hrun.
  - intros Hr. specialize (IH e Hr). simpl in IH. rewrite IH.
    rewrite Nat.add_succ_r. simpl.
    assert (Hb : b = better best r').
    { unfold run_epoch in Hrun. unfold better.
      by destruct (Qlt_le_dec best (f1 r')); injection Hrun as _ <-. }
    by rewrite Hb.
Qed.

Lemma training_loop_length l2i epoch best results :
  length (training_loop l2i epoch best results).1 = length results.
Proof.
  revert epoch best. induction results as [|r rest IH]; intros epoch best; [done|].
  simpl. destruct (run_epoch l2i epoch best r) as [evs b].
  specialize (IH (S epoch) b).
  destruct (training_loop l2i (S epoch) b rest) as [later b']. simpl in *. by rewrite IH.
Qed.

Lemma best_after_lt best rs f :
  (best_after best rs < f)%Q <->
  (best < f)%Q /\ Forall (fun r => (f1 r < f)%Q) rs.
Proof.
  revert best. induction rs as [|r rs IH]; intros best; simpl.
  - split; [by intros ?; split|by intros [? _]].
  - rewrite IH. unfold better. rewrite Forall_cons.
    destruct (Qlt_le_dec best (f1 r)) as [Hlt|Hle].
    + split.
      * intros [Hr Hrs]. split; [|done]. by transitivity (f1 r).
      * by intros [_ [? ?]].
    + split.
      * intros [Hb Hrs]. split; [done|]. split; [|done].
        by eapply Qle_lt_trans.
      * by intros [? [_ ?]].
Qed.

Lemma training_loop_events l2i epoch best results evs :
  evs ∈ (training_loop l2i epoch best results).1 ->
  exists epoch' best' r, evs = (run_epoch l2i epoch' best' r).1.
Proof.
  revert epoch best. induction results as [|r rest IH]; intros epoch best; simpl.
  - by intros ?%elem_of_nil.
  - destruct (run_epoch l2i epoch best r) as [evs' b] eqn:Hrun.
    specialize (IH (S epoch) b).
    destruct (training_loop l2i (S epoch) b rest) as [later b']. simpl in *.
    intros [->|Hin]%elem_of_cons; [|by apply IH].
    exists epoch, best, r. by rewrite Hrun.
Qed.

Lemma main_run data results :
  let u := list_of_set (label <$> data) in
  let l2i := imap (fun i l => (l, i)) u in
  exists ids,
    load_data data = inr (Dataset (text <$> data) ids, l2i, u) /\
    main data results =
      Run [LogLoaded (length ids) (length u) u; CreateModel (length u)]
          (training_loop l2i 0 0%Q results).1
          [save_model FinalModel l2i; Completed (training_loop l2i 0 0%Q results).2]
          Returned.
Proof.
  intros u l2i. destruct (load_data_ok data) as (ids & Hload & _).
  exists ids. split; [done|]. unfold main. rewrite Hload. fold u l2i. simpl.
  by destruct (training_loop l2i 0 0%Q results).
Qed.

Lemma filter_none {A} (P : A -> Prop) `{forall x, Decision (P x)} (l : list A) :
  Forall (fun x => ~ P x) l -> filter P l = [].
Proof.
  induction 1 as [|x l Hx _ IH]; [done|]. by rewrite filter_cons_False.
Qed.
End TrainerFacts.

End TrainFacts.

Module TrainSpec.
Import Py Train TrainFacts.

Section Claims.
Context {L : Type} `{EqDecision L} `{SetOrder L}.
Implicit Types (data : list (sample L)) (results : list epoch_result).

(** C1: [load_data] succeeds, and the mapping every snapshot persists is a
    bijection between the distinct labels of the data and the class ids
    [0 .. n-1]: [label_to_id] numbers the distinct labels, [id_to_label]
    is its inverse under [str], and the model is created with
    [num_labels = n], so each class id has an entry in [id_to_label]. *)
Theorem label_mapping_bijection data :
  exists dataset l2i unique_labels,
    load_data data = inr (dataset, l2i, unique_labels) /\
    let n := length unique_labels in
    let m := saved_mapping l2i in
    n = length (remove_dups (label <$> data)) /\
    Forall2 (fun s id => dict_get l2i (label s) = Some id) data (labels dataset) /\
    (forall l, l ∈ label <$> data <-> is_Some (dict_get (label_to_id m) l)) /\
    (forall l i, dict_get (label_to_id m) l = Some i -> i < n) /\
    (forall i, i < n -> exists l, dict_get (label_to_id m) l = Some i) /\
    (forall l l' i, dict_get (label_to_id m) l = Some i ->
                    dict_get (label_to_id m) l' = Some i -> l = l') /\
    (forall l i, dict_get (label_to_id m) l = Some i <->
                 dict_get (id_to_label m) (pretty i) = Some l) /\
    (forall k l, dict_get (id_to_label m) k = Some l -> exists i, k = pretty i /\ i < n) /\
    (forall i, i < n -> is_Some (dict_get (id_to_label m) (pretty i))) /\
    (forall results,
        CreateModel n ∈ setup (main data results) /\
        Save FinalModel m ∈ trace (main data results) /\
        forall dir m', Save dir m' ∈ trace (main data results) -> m' = m).
Proof.
  set (u := list_of_set (label <$> data)).
  pose proof (list_of_set_NoDup (label <$> data)) as Hnd. fold u in Hnd.
  destruct (load_data_ok data) as (ids & Hload & Hids). fold u in Hload, Hids.
  eexists _, _, _. split; [exact Hload|]. cbn zeta.
  assert (Hget : forall l i, dict_get (imap (fun i l => (l, i)) u) l = Some i
                             <-> u !! i = Some l).
  { intros l i. by apply dict_get_label_to_id. }
  unfold saved_mapping. cbn [label_to_id id_to_label labels].
  rewrite id_to_label_enumerate.
  split; [|split; [|split; [|split; [|split; [|split; [|split; [|split; [|split]]]]]]]].
  - apply Permutation_length, NoDup_Permutation; [done|apply NoDup_remove_dups|].
    intros l. unfold u. by rewrite list_of_set_elem, elem_of_remove_dups.
  - eapply Forall2_impl; [exact Hids|]. intros s id Hid. by apply Hget.
  - intros l. rewrite <- (list_of_set_elem _ l). fold u.
    rewrite list_elem_of_lookup. split.
    + intros [i Hi]. exists i. by apply Hget.
    + intros [i Hi]. exists i. by apply Hget.
  - intros l i Hi%Hget. by eapply lookup_lt_Some.
  - intros i Hi. destruct (lookup_lt_is_Some_2 u i Hi) as [l Hl].
    exists l. by apply Hget.
  - intros l l' i Hl%Hget Hl'%Hget. congruence.
  - intros l i. rewrite Hget, dict_get_id_to_label. split.
    + intros Hi. by exists i.
    + intros (j & Hj%(inj pretty) & Hl). by subst j.
  - intros k l (i & -> & Hi)%dict_get_id_to_label. exists i. split; [done|].
    by eapply lookup_lt_Some.
  - intros i Hi. destruct (lookup_lt_is_Some_2 u i Hi) as [l Hl].
    exists l. apply dict_get_id_to_label. by exists i.
  - intros results. destruct (main_run data results) as (ids' & _ & ->).
    fold u. unfold trace. cbn [setup epochs finish].
    split; [by right; left|]. split.
    { apply elem_of_app. right. apply elem_of_app. right.
      unfold save_model, saved_mapping. rewrite id_to_label_enumerate. by left. }
    intros dir m' Hin.
    assert (Hm : m' = saved_mapping (imap (fun i l => (l, i)) u)).
    { apply elem_of_app in Hin as [Hin|Hin].
      { repeat (apply elem_of_cons in Hin as [?|Hin]; [done|]).
        by apply elem_of_nil in Hin. }
      apply elem_of_app in Hin as [Hin|Hin].
      - apply list_elem_of_join in Hin as (evs & Hev & Hevs).
        apply training_loop_events in Hevs as (e' & b' & r & ->).
        apply run_epoch_events in Hev as [_ Hsave].
        by destruct (Hsave dir m' eq_refl).
      - unfold save_model in Hin.
        apply elem_of_cons in Hin as [[= _ ->]|Hin]; [done|].
        apply elem_of_cons in Hin as [?|Hin]; [done|].
        by apply elem_of_nil in Hin. }
    rewrite Hm. unfold saved_mapping. by rewrite id_to_label_enumerate.
Qed.

(** C7 (as amended): epoch [e] saves a best snapshot exactly when its F1 is
    above 0.0, the initial [best_f1], and above the F1 of every earlier
    epoch; the final snapshot is saved once, after the last epoch. *)
Theorem best_snapshot_iff_improves data results :
  let r := main data results in
  length (epochs r) = length results /\
  (forall e res evs,
      results !! e = Some res -> epochs r !! e = Some evs ->
      (exists m, Save BestModel m ∈ evs) <->
      (0 < f1 res)%Q /\
      forall e' res', e' < e -> results !! e' = Some res' -> (f1 res' < f1 res)%Q) /\
  (exists m best, finish r = [Save FinalModel m; Completed best]) /\
  trace r = setup r ++ mjoin (epochs r) ++ finish r /\
  length (filter (fun ev => is_save FinalModel ev = true) (trace r)) = 1.
Proof.
  intros r. subst r. destruct (main_run data results) as (ids & _ & ->).
  cbn [epochs finish setup]. set (l2i := imap _ _).
  split; [apply training_loop_length|]. split; [|split; [|split]].
  - intros e res evs Hres Hevs.
    rewrite (training_loop_lookup _ _ _ _ _ _ Hres) in Hevs.
    injection Hevs as <-. rewrite run_epoch_saves, best_after_lt.
    apply and_iff_compat_l. rewrite Forall_lookup. split.
    + intros Hall e' res' He' Hres'. apply (Hall e' res').
      rewrite lookup_take_lt by done. done.
    + intros Hall e' res' Hres'. apply lookup_take_Some in Hres' as [? ?].
      by eapply Hall.
  - by eexists _, _.
  - done.
  - unfold trace. cbn [epochs finish setup]. rewrite !filter_app.
    rewrite (filter_none _ (mjoin _)).
    + done.
    + apply Forall_forall. intros ev Hin.
      apply list_elem_of_join in Hin as (evs & Hev & Hevs).
      apply training_loop_events in Hevs as (e' & b' & r & ->).
      apply run_epoch_events in Hev as [-> _]. done.
Qed.
End Claims.

(** The rule as the specification words it, with no floor of 0.0, fails
    when the first epoch measures an F1 of 0.0: nothing is saved, although
    no earlier epoch did better. *)
Lemma first_epoch_without_f1_saves_nothing :
  let results := [EpochResult (1 # 2) 0 0] in
  let r := main (H := first_seen string) sample_data results in
  exists res evs,
    results !! 0 = Some res /\ epochs r !! 0 = Some evs /\
    ~ ((exists m, Save BestModel m ∈ evs) <->
       forall e' res', e' < 0 -> results !! e' = Some res' -> (f1 res' < f1 res)%Q).
Proof.
  eexists _, _. split; [reflexivity|]. split; [reflexivity|].
  intros [_ Hsave]. destruct Hsave as [m Hin]; [lia|].
  repeat (apply elem_of_cons in Hin as [?|Hin]; [done|]).
  by apply elem_of_nil in Hin.
Qed.


Lemma label_mapping_bijection_witness :
  exists l2i,
    dict_get l2i "detect" = Some 1 /\
    dict_get (id_to_label (saved_mapping l2i)) "1" = Some "detect".
Proof.
  destruct (label_mapping_bijection (H := first_seen string) sample_data)
    as (ds & l2i & u & Hload & _ & _ & _ & _ & _ & _ & Hinv & _).
  assert (Hget : dict_get l2i "detect" = Some 1).
  { vm_compute in Hload. injection Hload as _ <- _. reflexivity. }
  exists l2i. split; [exact Hget|]. apply (Hinv "detect" 1). exact Hget.
Defined.

Lemma best_snapshot_iff_improves_witness :
  exists m,
    Save BestModel m ∈
      [EpochStart 3; EpochTrained 3 (1 # 10); Scalar "Loss/train" (1 # 10) 2;
       EpochValidated 3 (4 # 5) (7 # 10); Scalar "Accuracy/val" (4 # 5) 2;
       Scalar "F1/val" (7 # 10) 2;
       Save (L := string) BestModel
         (saved_mapping [("translate", 0); ("detect", 1)])].
Proof.
  destruct (best_snapshot_iff_improves (H := first_seen string) sample_data
              sample_results) as (_ & Hiff & _).
  apply (Hiff 2 (EpochResult (1 # 10) (4 # 5) (7 # 10))); [reflexivity..|].
  split; [reflexivity|].
  intros e' res' He' Hres'.
  destruct e' as [|[|e']]; [| |lia]; vm_compute in Hres'; injection Hres' as <-;
    reflexivity.
Defined.

End TrainSpec.

(** ** The predictor *)

Module PredictFacts.
Import Py Train Predict.
Local Open Scope R_scope.

Lemma Rsum_cons x (l : list R) : Rsum (x :: l) = x + Rsum l.
Proof. done. Qed.

Lemma Rsum_exp_nonneg (l : list R) : 0 <= Rsum (exp <$> l).
Proof.
  induction l as [|z l IH]; [unfold Rsum; simpl; lra|].
  rewrite fmap_cons, Rsum_cons. pose proof (exp_pos z). lra.
Qed.

Lemma Rsum_exp_ge (l : list R) x : x ∈ l -> exp x <= Rsum (exp <$> l).
Proof.
  induction l as [|y l IH]; [by intros ?%elem_of_nil|].
  pose proof (Rsum_exp_nonneg l) as Hpos.
  rewrite fmap_cons, Rsum_cons. intros [->|Hx]%elem_of_cons.
  - lra.
  - specialize (IH Hx). pose proof (exp_pos y). lra.
Qed.

Lemma softmax_lookup (l : list R) i p :
  softmax l !! i = Some p <->
  exists x, l !! i = Some x /\ p = exp x / Rsum (exp <$> l).
Proof.
  unfold softmax. rewrite list_lookup_fmap. destruct (l !! i) as [x|]; simpl.
  - split; [intros [= <-]; by exists x|by intros (? & [= <-] & ->)].
  - split; [done|by intros (? & ? & _)].
Qed.

Lemma softmax_length (l : list R) : length (softmax l) = length l.
Proof. unfold softmax. by rewrite length_fmap. Qed.

Lemma softmax_range (l : list R) i p : softmax l !! i = Some p -> 0 < p <= 1.
Proof.
  intros (x & Hx & ->)%softmax_lookup.
  apply list_elem_of_lookup_2 in Hx. pose proof (Rsum_exp_ge l x Hx) as Hge.
  pose proof (exp_pos x) as Hpos.
  assert (Ht : 0 < Rsum (exp <$> l)) by lra.
  split.
  - by apply Rdiv_lt_0_compat.
  - apply (Rmult_le_reg_r (Rsum (exp <$> l))); [done|].
    replace (exp x / Rsum (exp <$> l) * Rsum (exp <$> l)) with (exp x) by (field; lra).
    lra.
Qed.

(** [argmax_from] keeps the first position of the largest value seen. *)
Lemma argmax_from_spec (pre l : list R) best_i best :
  pre !! best_i = Some best ->
  (forall j w, pre !! j = Some w -> w <= best) ->
  (forall j w, (j < best_i)%nat -> pre !! j = Some w -> w < best) ->
  let k := argmax_from best_i best (length pre) l in
  exists v, (pre ++ l) !! k = Some v /\
    (forall j w, (pre ++ l) !! j = Some w -> w <= v) /\
    (forall j w, (j < k)%nat -> (pre ++ l) !! j = Some w -> w < v).
Proof.
  revert pre best_i best. induction l as [|x l IH]; intros pre best_i best Hb Hmax Hfirst.
  - simpl. rewrite app_nil_r. by exists best.
  - cbn [argmax_from]. replace (pre ++ x :: l) with ((pre ++ [x]) ++ l)
      by (by rewrite <- app_assoc).
    replace (S (length pre)) with (length (pre ++ [x]))
      by (rewrite length_app; simpl; lia).
    destruct (Rlt_dec best x) as [Hlt|Hnlt].
    + apply (IH (pre ++ [x]) (length pre) x).
      * rewrite lookup_app_r by lia. by rewrite Nat.sub_diag.
      * intros j w Hj. apply lookup_app_Some in Hj as [Hj|[_ Hj]].
        -- specialize (Hmax j w Hj). lra.
        -- apply list_lookup_singleton_Some in Hj as [_ <-]. lra.
      * intros j w Hlt' Hj.
        rewrite lookup_app_l in Hj by done. specialize (Hmax j w Hj). lra.
    + apply IH.
      * rewrite lookup_app_l; [done|]. by eapply lookup_lt_Some.
      * intros j w Hj. apply lookup_app_Some in Hj as [Hj|[_ Hj]].
        -- by eapply Hmax.
        -- apply list_lookup_singleton_Some in Hj as [_ <-]. lra.
      * intros j w Hlt' Hj. apply Hfirst with j; [done|].
        rewrite lookup_app_l in Hj; [done|].
        apply lookup_lt_Some in Hb. lia.
Qed.

Lemma argmax_spec (l : list R) :
  l <> [] ->
  exists i v, argmax l = Some i /\ l !! i = Some v /\
    (forall j w, l !! j = Some w -> w <= v) /\
    (forall j w, (j < i)%nat -> l !! j = Some w -> w < v).
Proof.
  destruct l as [|x l]; [done|]. intros _.
  destruct (argmax_from_spec [x] l 0 x) as (v & Hv & Hmax & Hfirst); [done| | |].
  - intros j w Hj. apply list_lookup_singleton_Some in Hj as [_ <-]. lra.
  - intros j w Hj. lia.
  - eexists _, v. split; [done|]. split; [exact Hv|]. split; [exact Hmax|exact Hfirst].
Qed.

Lemma exp_double x : exp (2 * x) = exp x * exp x.
Proof. replace (2 * x) with (x + x) by lra. apply exp_plus. Qed.

Lemma square_down_nonneg scale a : (0 < scale)%Z -> (0 <= square_down scale a)%Z.
Proof. intros Hs. unfold square_down. apply Z.div_pos; [nia|done]. Qed.

Lemma square_down_bound scale a r :
  (0 < scale)%Z -> (0 <= a)%Z ->
  IZR a / IZR scale <= r ->
  IZR (square_down scale a) / IZR scale <= r * r.
Proof.
  intros Hs Ha Hr.
  assert (HS : 0 < IZR scale) by (by apply IZR_lt).
  assert (Ha' : 0 <= IZR a) by (by apply IZR_le).
  assert (Hq : 0 <= IZR a / IZR scale).
  { apply Rmult_le_pos; [done|]. by apply Rlt_le, Rinv_0_lt_compat. }
  assert (Hd : IZR (square_down scale a) * IZR scale <= IZR a * IZR a).
  { rewrite <- !mult_IZR. apply IZR_le. unfold square_down.
    rewrite Z.mul_comm. apply Z.mul_div_le. done. }
  apply Rle_trans with ((IZR a / IZR scale) * (IZR a / IZR scale)).
  - apply (Rmult_le_reg_r (IZR scale)); [done|].
    replace (IZR a / IZR scale * (IZR a / IZR scale) * IZR scale)
      with (IZR a * IZR a / IZR scale) by (field; lra).
    apply (Rmult_le_reg_r (IZR scale)); [done|].
    replace (IZR a * IZR a / IZR scale * IZR scale) with (IZR a * IZR a) by (field; lra).
    replace (IZR (square_down scale a) / IZR scale * IZR scale * IZR scale)
      with (IZR (square_down scale a) * IZR scale) by (field; lra).
    done.
  - by apply Rmult_le_compat.
Qed.

(** A lower bound of [exp x] gives one of [exp (2^k * x)] by squaring [k]
    times, rounding down. *)
Lemma exp_lower_iter scale k a x :
  (0 < scale)%Z -> (0 <= a)%Z ->
  IZR a / IZR scale <= exp x ->
  (0 <= Nat.iter k (square_down scale) a)%Z /\
  IZR (Nat.iter k (square_down scale) a) / IZR scale <= exp (IZR (2 ^ Z.of_nat k) * x).
Proof.
  intros Hs Ha Hx. induction k as [|k [IH0 IH]].
  - simpl. split; [done|]. by rewrite Rmult_1_l.
  - cbn [Nat.iter]. split; [by apply square_down_nonneg|].
    rewrite Nat2Z.inj_succ, Z.pow_succ_r, mult_IZR, Rmult_assoc by lia.
    rewrite exp_double. by apply square_down_bound.
Qed.

Lemma exp_m19_lower : 14956 / 100000 < exp (- (19 / 10)).
Proof.
  destruct (exp_lower_iter fixed_scale 20 (fixed_scale - 190000000000000000000)
              (- (19 / 10) / 1048576))
    as [_ H].
  - reflexivity.
  - vm_compute; discriminate.
  - eapply Rle_trans; [|apply exp_ineq1_le].
    apply Req_le. vm_compute (fixed_scale - _)%Z. unfold fixed_scale. field.
  - vm_compute (2 ^ Z.of_nat 20)%Z in H.
    replace (1048576 * (- (19 / 10) / 1048576)) with (- (19 / 10)) in H by field.
    eapply Rlt_le_trans; [|exact H].
    vm_compute (Nat.iter _ _ _). unfold fixed_scale. lra.
Qed.

Lemma exp_19_lower : 10000 / 1496 < exp (19 / 10).
Proof.
  destruct (exp_lower_iter fixed_scale 20 (fixed_scale + 190000000000000000000)
              ((19 / 10) / 1048576))
    as [_ H].
  - reflexivity.
  - vm_compute; discriminate.
  - eapply Rle_trans; [|apply exp_ineq1_le].
    apply Req_le. vm_compute (fixed_scale + _)%Z. unfold fixed_scale. field.
  - vm_compute (2 ^ Z.of_nat 20)%Z in H.
    replace (1048576 * ((19 / 10) / 1048576)) with (19 / 10) in H by field.
    eapply Rlt_le_trans; [|exact H].
    vm_compute (Nat.iter _ _ _). unfold fixed_scale. lra.
Qed.

(** [softmax([2.0, 0.1])[0]] lies between 0.8698 and 0.8699. *)
Lemma softmax_example_bounds :
  8698 / 10000 < exp 2 / (exp 2 + exp (1 / 10)) < 8699 / 10000.
Proof.
  pose proof exp_m19_lower as Hlo. pose proof exp_19_lower as Hhi.
  pose proof (exp_pos 2) as H2. pose proof (exp_pos (19 / 10)) as H19.
  assert (He : exp (1 / 10) = exp 2 * exp (- (19 / 10))).
  { rewrite <- exp_plus. f_equal. lra. }
  assert (Hinv : exp (- (19 / 10)) = / exp (19 / 10)) by apply exp_Ropp.
  set (E := exp (- (19 / 10))) in *.
  assert (HE : E < 1496 / 10000).
  { rewrite Hinv. apply (Rmult_lt_reg_r (exp (19 / 10))); [done|].
    rewrite Rinv_l by lra.
    apply (Rmult_lt_reg_l (10000 / 1496)); [lra|].
    replace (10000 / 1496 * (1496 / 10000 * exp (19 / 10)))
      with (exp (19 / 10)) by field.
    lra. }
  rewrite He.
  replace (exp 2 / (exp 2 + exp 2 * E)) with (/ (1 + E)).
  2:{ field. split; [|lra]. assert (0 < exp 2 * E) by (apply Rmult_lt_0_compat; lra). lra. }
  assert (HE0 : 0 < 1 + E) by lra.
  split.
  - apply (Rmult_lt_reg_r (1 + E)); [done|]. rewrite Rinv_l by lra. lra.
  - apply (Rmult_lt_reg_r (1 + E)); [done|]. rewrite Rinv_l by lra. lra.
Qed.

End PredictFacts.

Module PredictSpec.
Import Py Train Predict PredictFacts.
Local Open Scope R_scope.

(** C6: with a label for every class id, [predict] returns the label of the
    first largest softmax probability and that probability, which lies in
    [0, 1]; with labels "translate" and "other" and logits [2.0, 0.1] it
    returns "translate" with confidence [softmax([2.0, 0.1])[0]], between
    0.8698 and 0.8699. *)
Theorem predict_argmax_softmax :
  (forall self query,
      model self query <> [] ->
      (forall i, (i < length (model self query))%nat ->
                 is_Some (dict_get (id_to_label self) (Z.of_nat i))) ->
      exists i task confidence,
        predict self query = inr (Prediction task confidence) /\
        argmax (softmax (model self query)) = Some i /\
        dict_get (id_to_label self) (Z.of_nat i) = Some task /\
        softmax (model self query) !! i = Some confidence /\
        (forall j p, softmax (model self query) !! j = Some p -> p <= confidence) /\
        0 <= confidence <= 1) /\
  (forall model query,
      model query = [2; 1 / 10] ->
      exists table confidence,
        load_id_to_label [("0", "translate"); ("1", "other")]%string = inr table /\
        predict (Classifier model table) query
          = inr (Prediction "translate" confidence) /\
        confidence = exp 2 / (exp 2 + exp (1 / 10)) /\
        8698 / 10000 < confidence < 8699 / 10000).
Proof.
  split.
  - intros self query Hne Hlabels.
    assert (Hne' : softmax (model self query) <> []).
    { intros Hnil. apply Hne. apply length_zero_iff_nil.
      by rewrite <- softmax_length, Hnil. }
    destruct (argmax_spec _ Hne') as (i & p & Hi & Hp & Hmax & _).
    assert (Hlt : (i < length (model self query))%nat).
    { rewrite <- softmax_length. by eapply lookup_lt_Some. }
    destruct (Hlabels i Hlt) as [task Htask].
    exists i, task, p. unfold predict. rewrite Hi, Hp, Htask.
    repeat split; try done.
    all: apply softmax_range in Hp; lra.
  - intros model query Hlogits.
    exists [(0%Z, "translate"%string); (1%Z, "other"%string)], (exp 2 / (exp 2 + exp (1 / 10))).
    split; [reflexivity|]. split; [|split; [done|apply softmax_example_bounds]].
    unfold predict. cbn [Predict.model id_to_label]. rewrite Hlogits.
    unfold softmax, Rsum. cbn [fmap list_fmap fold_right argmax argmax_from].
    rewrite Rplus_0_r.
    destruct (Rlt_dec _ _) as [Hlt|_].
    + exfalso. pose proof (exp_pos 2). pose proof (exp_pos (1 / 10)).
      assert (Hinc : exp (1 / 10) < exp 2) by (apply exp_increasing; lra).
      assert (Hs : 0 < exp 2 + exp (1 / 10)) by lra.
      apply (Rmult_lt_compat_r _ _ _ Hs) in Hlt.
      replace (exp 2 / (exp 2 + exp (1 / 10)) * (exp 2 + exp (1 / 10)))
        with (exp 2) in Hlt by (field; lra).
      replace (exp (1 / 10) / (exp 2 + exp (1 / 10)) * (exp 2 + exp (1 / 10)))
        with (exp (1 / 10)) in Hlt by (field; lra).
      lra.
    + reflexivity.
Qed.

Lemma predict_argmax_softmax_witness :
  exists confidence,
    predict (Classifier (fun _ => [2; 1 / 10])
                        [(0%Z, "translate"%string); (1%Z, "other"%string)])
            "translate this sentence"
      = inr (Prediction "translate" confidence) /\
    8698 / 10000 < confidence < 8699 / 10000.
Proof.
  destruct predict_argmax_softmax as [_ Hexample].
  destruct (Hexample (fun _ => [2; 1 / 10]) "translate this sentence"%string eq_refl)
    as (table & confidence & Hload & Hpredict & _ & Hbounds).
  vm_compute in Hload. injection Hload as <-.
  exists confidence. split; [exact Hpredict|exact Hbounds].
Defined.

End PredictSpec.

(** ** The box-drawing script *)

Module DrawBoxesSpec.
Import Py DrawBoxes.

Lemma draw_loop_lookup f boxes labels scores i box label score :
  boxes !! i = Some box -> labels !! i = Some label -> scores !! i = Some score ->
  (forall j b, j <= i -> boxes !! j = Some b -> length b = 4) ->
  exists x_min y_min x_max y_max,
    box = [x_min; y_min; x_max; y_max] /\
    take 2 (drop (2 * i) (draw_loop f boxes labels scores).1)
      = [Rectangle box "red" 3;
         Text (fsub x_max (float_of_int 20), fsub y_max (float_of_int 20))
              (label ++ " (" ++ format_2f score ++ ")")%string "yellow" f].
Proof.
  revert boxes labels scores.
  induction i as [|i IH]; intros boxes labels scores Hb Hl Hs Hlen.
  - destruct boxes as [|b boxes]; [done|]. destruct labels as [|l labels]; [done|].
    destruct scores as [|s scores]; [done|]. simpl in Hb, Hl, Hs.
    injection Hb as ->. injection Hl as ->. injection Hs as ->.
    specialize (Hlen 0 box (le_n 0) eq_refl).
    destruct box as [|x_min [|y_min [|x_max [|y_max [|??]]]]]; try done.
    exists x_min, y_min, x_max, y_max. split; [done|].
    cbn [draw_loop]. by destruct (draw_loop f boxes labels scores).
  - destruct boxes as [|b boxes]; [done|]. destruct labels as [|l labels]; [done|].
    destruct scores as [|s scores]; [done|]. simpl in Hb, Hl, Hs.
    destruct (IH boxes labels scores Hb Hl Hs) as (x_min & y_min & x_max & y_max & -> & Hops).
    { intros j b' Hj Hb'. apply (Hlen (S j)); [lia|done]. }
    exists x_min, y_min, x_max, y_max. split; [done|].
    pose proof (Hlen 0 b (Nat.le_0_l _) eq_refl) as Hb0.
    destruct b as [|a1 [|a2 [|a3 [|a4 [|??]]]]]; try done.
    cbn [draw_loop]. destruct (draw_loop f boxes labels scores) as [ops st].
    replace (2 * S i) with (S (S (2 * i))) by lia. exact Hops.
Qed.

(** C8: the loop turns the [i]-th (box, label, score) triple into a red
    rectangle of width 3 with the box's four corners and a yellow text
    "label (score to two decimals)" at [(x_max - 20, y_max - 20)]; label
    "tree" and score 0.578 give the text "tree (0.58)". *)
Theorem draw_boxes_overlay :
  (forall f boxes labels scores i box label score,
      boxes !! i = Some box -> labels !! i = Some label -> scores !! i = Some score ->
      (forall j b, j <= i -> boxes !! j = Some b -> length b = 4) ->
      exists x_min y_min x_max y_max,
        box = [x_min; y_min; x_max; y_max] /\
        take 2 (drop (2 * i) (draw_loop f boxes labels scores).1) =
          [Rectangle [x_min; y_min; x_max; y_max] "red" 3;
           Text (fsub x_max (float_of_int 20), fsub y_max (float_of_int 20))
                (label ++ " (" ++ format_2f score ++ ")")%string "yellow" f]) /\
  format_2f example_score = "0.58" /\
  draw_loop Default16 [example_box] ["tree"] [example_score] =
    ([Rectangle example_box "red" 3;
      Text (S754_finite false 7951668092076032 (-45),   (* 226.0 *)
            S754_finite false 4519432594810470 (-44))   (* 256.9 *)
           "tree (0.58)" "yellow" Default16], Returned) /\
  forallb offset_is_20 (drop 2 example_box ++ mjoin (drop 2 <$> boxes script_output))
    = true /\
  (draw true script_output script_path).2 = Returned /\
  (fun op => match op with Text _ t _ _ => Some t | _ => None end)
    <$> (draw true script_output script_path).1
    = [None; Some "tree (0.58)"; None; Some "tree (0.38)"; None].
Proof.
  split; [|by vm_compute].
  intros f boxes labels scores i box label score Hb Hl Hs Hlen.
  destruct (draw_loop_lookup f boxes labels scores i box label score Hb Hl Hs Hlen)
    as (x_min & y_min & x_max & y_max & -> & Hops).
  by exists x_min, y_min, x_max, y_max.
Qed.

Lemma draw_boxes_overlay_witness :
  take 2 (drop 2 (draw_loop Arial16 (boxes script_output) (labels script_output)
                    (scores script_output)).1) =
    [Rectangle [S754_finite false 7019588785012736 (-45);
                S754_finite false 7185902535180288 (-44);
                S754_finite false 8674410693132288 (-45);
                S754_finite false 8223106535522304 (-44)] "red" 3;
     Text (S754_finite false 7970723251355648 (-45),
           S754_finite false 7871262814633984 (-44))
          "tree (0.38)" "yellow" Arial16].
Proof.
  destruct draw_boxes_overlay as [Hloop _].
  destruct (Hloop Arial16 (boxes script_output) (labels script_output)
              (scores script_output) 1
              [S754_finite false 7019588785012736 (-45);
               S754_finite false 7185902535180288 (-44);
               S754_finite false 8674410693132288 (-45);
               S754_finite false 8223106535522304 (-44)]
              "tree" (S754_finite false 6870080973438976 (-54))
              eq_refl eq_refl eq_refl)
    as (x_min & y_min & x_max & y_max & Hbox & Hops).
  - intros [|[|j]] b Hj Hb; [| |lia]; injection Hb as <-; reflexivity.
  - injection Hbox as <- <- <- <-. exact Hops.
Defined.

End DrawBoxesSpec.


(** * Further properties *)

(** ** [clean_text] and the data preparer *)

Module CleanTextFacts.
Import Py PrepareData PyFacts.

Lemma lower_char_space c : is_space (lower_char c) = is_space c.
Proof. destruct c as [[] [] [] [] [] [] [] []]; reflexivity. Qed.

Lemma lower_char_idem c : lower_char (lower_char c) = lower_char c.
Proof. destruct c as [[] [] [] [] [] [] [] []]; reflexivity. Qed.

Lemma lower_idem s : lower (lower s) = lower s.
Proof. induction s as [|c s IH]; [done|]. simpl. by rewrite lower_char_idem, IH. Qed.

Lemma no_space_lower s : no_space (lower s) = no_space s.
Proof. induction s as [|c s IH]; [done|]. simpl. by rewrite lower_char_space, IH. Qed.

Lemma is_word_lower w : is_word (lower w) = is_word w.
Proof. destruct w as [|c w]; [done|]. apply (no_space_lower (String c w)). Qed.

Lemma string_app_nil_r s : (s ++ "")%string = s.
Proof.
  induction s as [|c s IH]; [done|].
  change (String c (s ++ "")%string = String c s). by rewrite IH.
Qed.

(** A word followed by nothing or by whitespace is split off whole. *)
Lemma words_word_app w t :
  is_word w = true -> starts_space t = true \/ t = EmptyString ->
  words (w ++ t)%string = w :: words t.
Proof.
  intros Hw Ht. induction w as [|c w IH]; [done|].
  simpl in Hw. apply andb_true_iff in Hw as [Hc Hw].
  apply negb_true_iff in Hc.
  destruct w as [|c2 w].
  - change (String c "" ++ t)%string with (String c t).
    cbn [words]. rewrite Hc.
    destruct t as [|c' t']; [done|].
    destruct Ht as [Ht|[=]]. simpl in Ht. by rewrite Ht.
  - assert (Hc2 : is_space c2 = false).
    { simpl in Hw. apply andb_true_iff in Hw as [Hc2 _]. by apply negb_true_iff. }
    specialize (IH Hw).
    change (String c (String c2 w) ++ t)%string
      with (String c (String c2 (w ++ t)%string)).
    change (String c2 w ++ t)%string with (String c2 (w ++ t)%string) in IH.
    cbn [words] in *. rewrite Hc, Hc2 in *.
    destruct (w ++ t)%string as [|c3 r] eqn:Hr.
    + by injection IH as <- <-.
    + destruct (is_space c3).
      * by injection IH as <- <-.
      * destruct (words (String c3 r)) as [|w3 ws3].
        -- by injection IH as <- <-.
        -- by injection IH as <- <-.
Qed.

Lemma words_concat ws :
  Forall (fun w => is_word w = true) ws -> words (String.concat " " ws) = ws.
Proof.
  induction 1 as [|w ws Hw Hws IH]; [done|].
  destruct ws as [|w' ws].
  - simpl. pose proof (words_word_app w "" Hw (or_intror eq_refl)) as Hx.
    by rewrite string_app_nil_r in Hx.
  - change (String.concat " " (w :: w' :: ws))
      with (w ++ String " " (String.concat " " (w' :: ws)))%string.
    rewrite words_word_app by (done || by left).
    f_equal. exact IH.
Qed.

Lemma lower_words_are_words s :
  Forall (fun w => is_word w = true) (lower <$> words s).
Proof.
  apply Forall_fmap. eapply Forall_impl; [apply words_are_words|].
  intros w Hw. simpl. by rewrite is_word_lower.
Qed.

Lemma clean_text_words q : clean_text q = String.concat " " (lower <$> words q).
Proof. unfold clean_text. by rewrite re_sub_strip, lower_concat. Qed.

Lemma words_clean_text q : words (clean_text q) = lower <$> words q.
Proof. rewrite clean_text_words. apply words_concat, lower_words_are_words. Qed.



Lemma strip_fixed s :
  starts_space s = false -> rstrip s = s -> strip s = s.
Proof.
  intros Hs Hr. unfold strip. destruct s as [|c s]; [done|].
  simpl in Hs. cbn [lstrip]. by rewrite Hs.
Qed.

End CleanTextFacts.

Module PrepareDataMore.
Import Py PrepareData PyFacts PrepareDataFacts CleanTextFacts.

(** X1: Cleaning is idempotent, and a cleaned text is in normal form: it is its
    own words joined by single spaces, and it is all lowercase. *)
Theorem clean_text_idempotent q :
  clean_text (clean_text q) = clean_text q /\
  clean_text q = String.concat " " (words (clean_text q)) /\
  lower (clean_text q) = clean_text q.
Proof.
  split; [|split].
  - rewrite (clean_text_words (clean_text q)), words_clean_text.
    rewrite <- list_fmap_compose.
    rewrite (list_fmap_ext (lower ∘ lower) lower) by (intros; apply lower_idem).
    by rewrite clean_text_words.
  - by rewrite words_clean_text, <- clean_text_words.
  - unfold clean_text. apply lower_idem.
Qed.


Section Runs.
Context `{Rng G}.
Implicit Types (g : G) (cfg : config) (labels : list string).

Lemma no_write_prefix dir (raw : list raw_item) :
  Forall (fun ev => is_write ev = false)
    ([LogInfo "Starting data preparation"; MakeDirs dir] ++ (Print <$> raw)).
Proof.
  apply Forall_app; split; [by repeat constructor|].
  apply Forall_fmap, Forall_true; done.
Qed.

(** X3: Whatever integer the split size is, negative or beyond the number of
    records, the two files partition the shuffled records: at or above [L]
    everything goes to [train.json], at or below [-L] everything goes to
    [test.json], and a negative size in between leaves that many records
    for [test.json]. *)
Theorem split_partitions_for_any_size g path dir raw cfg labels processed n :
  (process_loop labels raw []).2 = Done processed ->
  train_size_of cfg (length raw) = inr n ->
  let o := prepare_data g path dir (Some raw) cfg labels in
  let sh := (shuffle processed (rng_seed (seed cfg))).1 in
  let L := Z.of_nat (length raw) in
  exists train test,
    written TrainJson (trace o) = Some train /\
    written TestJson (trace o) = Some test /\
    train ++ test = sh /\
    length train + length test = length raw /\
    ((L <= n)%Z -> train = sh /\ test = []) /\
    ((n <= - L)%Z -> train = [] /\ test = sh) /\
    ((- L <= n < 0)%Z -> length test = Z.to_nat (- n)) /\
    ((0 <= n <= L)%Z -> length train = Z.to_nat n).
Proof.
  intros Hloop Hn o sh L.
  destruct (prepare_data_complete g path dir raw cfg labels processed n Hloop Hn)
    as [Hlen Ho].
  fold o sh in Ho.
  assert (Hsh : length sh = length raw).
  { subst sh. by rewrite shuffle_Permutation. }
  exists (slice_to sh n), (slice_from sh n).
  rewrite Ho. cbn [trace]. rewrite app_assoc, !written_two by apply no_write_prefix.
  split; [done|]. split; [done|]. split; [apply slice_partition|].
  split; [by rewrite <- length_app, slice_partition|].
  unfold slice_to, slice_from, slice_bound. rewrite Hsh. fold L.
  repeat split.
  - case Z.ltb_spec; intros; [lia|]. apply take_ge. lia.
  - case Z.ltb_spec; intros; [lia|]. apply drop_ge. lia.
  - case Z.ltb_spec; intros.
    + replace (Z.to_nat (Z.max 0 (L + n))) with 0 by lia. done.
    + assert (length raw = 0) by lia. apply length_zero_iff_nil.
      rewrite length_take. lia.
  - case Z.ltb_spec; intros.
    + replace (Z.to_nat (Z.max 0 (L + n))) with 0 by lia. done.
    + assert (length raw = 0) by lia. rewrite drop_ge by lia.
      symmetry. apply length_zero_iff_nil. lia.
  - intros [? ?]. case Z.ltb_spec; intros; [|lia].
    rewrite length_drop. lia.
  - intros [? ?]. case Z.ltb_spec; intros; [lia|].
    rewrite length_take. lia.
Qed.

(** X4: When the split size cannot be computed, NaN or an infinity, the run
    raises after the shuffle: nothing is written, and the random module is
    left reseeded. A NaN ratio does this for every input. *)
Theorem split_error_writes_nothing g path dir raw cfg labels processed e :
  (process_loop labels raw []).2 = Done processed ->
  train_size_of cfg (length raw) = inl e ->
  let o := prepare_data g path dir (Some raw) cfg labels in
  result o = Raised e /\ (e = ValueError \/ e = OverflowError) /\
  written TrainJson (trace o) = None /\ written TestJson (trace o) = None /\
  rng o = (shuffle processed (rng_seed (seed cfg))).2 /\
  (train_split cfg = S754_nan -> e = ValueError).
Proof.
  intros Hloop He o.
  destruct (process_loop labels raw []) as [tr1 end_] eqn:Hl. simpl in Hloop.
  subst end_. destruct (process_loop_Done _ _ _ _ _ Hl) as (rs & -> & -> & Hall).
  assert (Ho : o = Outcome ([LogInfo "Starting data preparation"; MakeDirs dir]
                            ++ (Print <$> raw)) (Raised e)
                           (shuffle ([] ++ rs) (rng_seed (seed cfg))).2).
  { subst o. unfold prepare_data. rewrite Hl.
    pose proof (shuffle_Permutation ([] ++ rs) (rng_seed (seed cfg))) as Hp.
    destruct (shuffle ([] ++ rs) (rng_seed (seed cfg))) as [sh g'].
    simpl in Hp. apply Permutation_length in Hp.
    apply Forall2_length in Hall.
    replace (length sh) with (length raw) by congruence.
    by rewrite He. }
  rewrite Ho. cbn [trace result rng].
  rewrite !written_no_write by apply no_write_prefix.
  repeat split; try done.
  - unfold train_size_of, int_of_float in He.
    destruct (fmul _ _); try done; injection He as <-; auto.
  - intros Hnan. unfold train_size_of in He. rewrite Hnan in He.
    destruct (float_of_int _); by injection He as <-.
Qed.

Lemma process_item_with_other labels item :
  "other" ∈ labels ->
  exists i, i < length labels /\
    process_item labels item =
      match query item with
      | Some q => Item {| text := clean_text q; label := i |}
      | None => Fail KeyError
      end.
Proof.
  intros Hother.
  destruct (decide (default "other" (task item) ∈ labels)) as [Hin|Hnot].
  - destruct (process_item_known labels item Hin) as (i & Hi & ->).
    exists i. split; [by eapply index_lt|done].
  - destruct (process_item_fallback labels item Hnot Hother) as (i & Hi & ->).
    exists i. split; [by eapply index_lt|done].
Qed.

Lemma process_loop_missing_query labels pre item post acc :
  "other" ∈ labels ->
  Forall (fun it => is_Some (query it)) pre -> query item = None ->
  process_loop labels (pre ++ item :: post) acc
    = (Print <$> (pre ++ [item]), Failed KeyError).
Proof.
  intros Hother Hpre Hitem. revert acc.
  induction Hpre as [|it pre [q Hq] _ IH]; intros acc; simpl.
  - destruct (process_item_with_other labels item Hother) as (i & _ & ->).
    by rewrite Hitem.
  - destruct (process_item_with_other labels it Hother) as (i & _ & ->).
    rewrite Hq. by rewrite IH.
Qed.

(** X5: With "other" among the labels, the first record without a "query"
    field stops the run with a [KeyError]: the records up to it have been
    printed, nothing is written and the random module is untouched. *)
Theorem missing_query_raises_KeyError g path dir pre item post cfg labels :
  "other" ∈ labels ->
  Forall (fun it => is_Some (query it)) pre -> query item = None ->
  let o := prepare_data g path dir (Some (pre ++ item :: post)) cfg labels in
  result o = Raised KeyError /\
  trace o = [LogInfo "Starting data preparation"; MakeDirs dir]
            ++ (Print <$> (pre ++ [item])) /\
  written TrainJson (trace o) = None /\ written TestJson (trace o) = None /\
  rng o = g.
Proof.
  intros Hother Hpre Hitem o. subst o. unfold prepare_data.
  rewrite (process_loop_missing_query labels pre item post [] Hother Hpre Hitem).
  cbn [trace result rng].
  rewrite !written_no_write by apply no_write_prefix. done.
Qed.

Lemma process_item_first_index labels item r :
  process_item labels item = Item r ->
  exists q t, query item = Some q /\ text r = clean_text q /\
    (t = default "other" (task item) \/
     (t = "other" /\ default "other" (task item) ∉ labels)) /\
    labels !! label r = Some t /\
    forall j, j < label r -> labels !! j <> Some t.
Proof.
  unfold process_item.
  destruct (contains _ labels) eqn:Hc.
  - destruct (index _ labels) as [i|] eqn:Hi; [|done].
    destruct (query item) as [q|]; [|done]. intros [= <-].
    apply index_Some in Hi as [Hl Hfirst].
    exists q, (default "other" (task item)). simpl. auto.
  - destruct (negb _); [done|].
    destruct (index _ labels) as [i|] eqn:Hi; [|done].
    destruct (query item) as [q|]; [|done]. intros [= <-].
    apply index_Some in Hi as [Hl Hfirst]. apply contains_false in Hc.
    exists q, "other". simpl. auto 6.
Qed.

(** Where a written record comes from. *)
Lemma written_record_item g path dir raw cfg labels f content r :
  written f (trace (prepare_data g path dir (Some raw) cfg labels)) = Some content ->
  r ∈ content ->
  exists item q t,
    item ∈ raw /\ query item = Some q /\ text r = clean_text q /\
    (t = default "other" (task item) \/
     (t = "other" /\ default "other" (task item) ∉ labels)) /\
    labels !! label r = Some t /\
    forall j, j < label r -> labels !! j <> Some t.
Proof.
  intros Hw Hr.
  destruct (prepare_data_inv g path dir (Some raw) cfg labels)
    as [[Hnw _]|(raw' & processed & n & [= <-] & Hloop & Hn)].
  { by rewrite written_no_write in Hw. }
  destruct (prepare_data_complete g path dir raw cfg labels processed n Hloop Hn)
    as [_ Ho].
  rewrite Ho in Hw. cbn [trace] in Hw.
  rewrite app_assoc, written_two in Hw by apply no_write_prefix.
  assert (Hsh : r ∈ (shuffle processed (rng_seed (seed cfg))).1).
  { rewrite <- (slice_partition _ n). apply elem_of_app.
    injection Hw as <-. destruct f; [by left|by right]. }
  rewrite shuffle_Permutation in Hsh.
  destruct (process_loop labels raw []) as [tr e] eqn:Hl. simpl in Hloop.
  subst e. destruct (process_loop_Done _ _ _ _ _ Hl) as (rs & -> & _ & Hall).
  simpl in Hsh. apply list_elem_of_lookup in Hsh as [k Hk].
  destruct (Forall2_lookup_r _ _ _ _ _ Hall Hk) as (item & Hitem & Hproc).
  destruct (process_item_first_index labels item r Hproc)
    as (q & t & Hq & Ht & Hcase & Hl' & Hfirst).
  exists item, q, t. split; [by eapply list_elem_of_lookup_2|]. auto 6.
Qed.

(** X6: every written record comes from an input record: its text is the
    cleaned query and its label is the first position, in the label list,
    of the record's task or else of "other"; a later duplicate of a label
    is never used. *)
Theorem written_records_come_from_input g path dir raw cfg labels f content r :
  written f (trace (prepare_data g path dir (Some raw) cfg labels)) = Some content ->
  r ∈ content ->
  exists item q t,
    item ∈ raw /\ query item = Some q /\ text r = clean_text q /\
    (t = default "other" (task item) \/
     (t = "other" /\ default "other" (task item) ∉ labels)) /\
    labels !! label r = Some t /\
    forall j, j < label r -> labels !! j <> Some t.
Proof. apply written_record_item. Qed.
End Runs.


Lemma split_partitions_for_any_size_witness :
  exists train test,
    written TrainJson (trace (prepare_data (H := lcg) 0 "queries.json" "processed"
      (Some sample_raw) (Config 42 (S754_finite true 4503599627370496 (-53)))
      example_labels)) = Some train /\
    written TestJson (trace (prepare_data (H := lcg) 0 "queries.json" "processed"
      (Some sample_raw) (Config 42 (S754_finite true 4503599627370496 (-53)))
      example_labels)) = Some test /\
    length train = 3 /\ length test = 2.
Proof.
  destruct (split_partitions_for_any_size (H := lcg) 0 "queries.json" "processed"
              sample_raw (Config 42 (S754_finite true 4503599627370496 (-53)))
              example_labels
              [{| text := "hello world"; label := 0 |};
               {| text := "find all roads"; label := 1 |};
               {| text := "count the trees"; label := 1 |};
               {| text := "x"; label := 1 |};
               {| text := "bonjour"; label := 0 |}] (-2)%Z)
    as (train & test & Htrain & Htest & _ & Hlen & _ & _ & Hneg & _).
  - reflexivity.
  - vm_compute. reflexivity.
  - exists train, test. split; [exact Htrain|]. split; [exact Htest|].
    assert (Ht : length test = 2) by (apply Hneg; simpl; lia).
    simpl in Hlen. lia.
Defined.

Lemma split_error_writes_nothing_witness :
  result (prepare_data (H := lcg) 0 "queries.json" "processed"
            (Some sample_raw) (Config 42 S754_nan) example_labels)
    = Raised ValueError.
Proof.
  destruct (split_error_writes_nothing (H := lcg) 0 "queries.json" "processed"
              sample_raw (Config 42 S754_nan) example_labels
              [{| text := "hello world"; label := 0 |};
               {| text := "find all roads"; label := 1 |};
               {| text := "count the trees"; label := 1 |};
               {| text := "x"; label := 1 |};
               {| text := "bonjour"; label := 0 |}] ValueError)
    as (Hres & _).
  - reflexivity.
  - vm_compute. reflexivity.
  - exact Hres.
Defined.

Lemma missing_query_raises_KeyError_witness :
  result (prepare_data (H := lcg) 7 "queries.json" "processed"
            (Some (example_raw ++ RawItem (Some "translate") None :: sample_raw))
            example_cfg example_labels)
    = Raised KeyError.
Proof.
  destruct (missing_query_raises_KeyError (H := lcg) 7 "queries.json" "processed"
              example_raw (RawItem (Some "translate") None) sample_raw
              example_cfg example_labels) as (Hres & _).
  - by right; left.
  - repeat constructor. by eexists.
  - reflexivity.
  - exact Hres.
Defined.

Lemma written_records_come_from_input_witness :
  exists item q,
    item ∈ sample_raw /\ query item = Some q /\ clean_text q = "find all roads".
Proof.
  destruct (written_records_come_from_input (H := lcg) 0 "queries.json" "processed"
              sample_raw example_cfg example_labels TrainJson
              [{| text := "count the trees"; label := 1 |};
               {| text := "x"; label := 1 |};
               {| text := "bonjour"; label := 0 |};
               {| text := "find all roads"; label := 1 |}]
              {| text := "find all roads"; label := 1 |})
    as (item & q & t & Hin & Hq & Ht & _).
  - vm_compute. reflexivity.
  - by do 3 right; left.
  - exists item, q. split; [exact Hin|]. split; [exact Hq|]. symmetry. exact Ht.
Defined.

End PrepareDataMore.

(** ** The trainer *)

Module TrainMore.
Import Py Train TrainFacts.

Section Trainer.
Context {L : Type} `{EqDecision L} `{SetOrder L}.
Implicit Types (data : list (sample L)) (results : list epoch_result).
Implicit Types (l2i : dict L nat) (ev : event L).

(** X7: [load_data] keeps the texts in order and encodes the labels
    consistently: every id is a class id, two samples get the same id
    exactly when they have the same label, every class id is used, and
    there is no class exactly when there is no data. *)
Theorem load_data_encodes_labels data :
  exists ds l2i u,
    load_data data = inr (ds, l2i, u) /\
    texts ds = text <$> data /\
    length (labels ds) = length data /\
    (forall k id, labels ds !! k = Some id -> id < length u) /\
    (forall k k' s s' id id',
        data !! k = Some s -> data !! k' = Some s' ->
        labels ds !! k = Some id -> labels ds !! k' = Some id' ->
        id = id' <-> label s = label s') /\
    (forall i, i < length u -> exists k, labels ds !! k = Some i) /\
    (length u = 0 <-> data = []).
Proof.
  set (u := list_of_set (label <$> data)).
  pose proof (list_of_set_NoDup (label <$> data)) as Hnd. fold u in Hnd.
  destruct (load_data_ok data) as (ids & Hload & Hids). fold u in Hload, Hids.
  eexists _, _, _. split; [exact Hload|]. cbn [texts labels].
  split; [done|]. split; [symmetry; by eapply Forall2_length|].
  split; [|split; [|split]].
  - intros k id Hk. destruct (Forall2_lookup_r _ _ _ _ _ Hids Hk) as (s & _ & Hs).
    by eapply lookup_lt_Some.
  - intros k k' s s' id id' Hs Hs' Hid Hid'.
    destruct (Forall2_lookup_l _ _ _ _ _ Hids Hs) as (i & Hi & Hu).
    destruct (Forall2_lookup_l _ _ _ _ _ Hids Hs') as (i' & Hi' & Hu').
    assert (i = id) by congruence. assert (i' = id') by congruence. subst i i'.
    split.
    + intros <-. congruence.
    + intros Heq. rewrite Heq in Hu. by eapply NoDup_lookup.
  - intros i Hi. destruct (lookup_lt_is_Some_2 u i Hi) as [l Hl].
    assert (Hin : l ∈ label <$> data).
    { apply (list_of_set_elem _ l). fold u. by eapply list_elem_of_lookup_2. }
    apply list_elem_of_lookup in Hin as [k Hk].
    rewrite list_lookup_fmap in Hk.
    destruct (data !! k) as [s|] eqn:Hs; [|done]. injection Hk as Hk.
    destruct (Forall2_lookup_l _ _ _ _ _ Hids Hs) as (id & Hid & Hu).
    exists k. rewrite Hid. f_equal. rewrite Hk in Hu. by eapply NoDup_lookup.
  - split.
    + intros Hu. destruct data as [|s data]; [done|]. exfalso.
      assert (Hin : label s ∈ u).
      { apply list_of_set_elem. simpl. by left. }
      apply length_zero_iff_nil in Hu. rewrite Hu in Hin. by apply elem_of_nil in Hin.
    + intros ->. apply length_zero_iff_nil. apply elem_of_nil_inv.
      intros l Hl. unfold u in Hl. rewrite list_of_set_elem in Hl.
      by apply elem_of_nil in Hl.
Qed.

Lemma training_loop_best l2i epoch best results :
  (training_loop l2i epoch best results).2 = best_after best results.
Proof.
  revert epoch best. induction results as [|r rest IH]; intros epoch best; [done|].
  simpl. destruct (run_epoch l2i epoch best r) as [evs b] eqn:Hrun.
  specialize (IH (S epoch) b).
  destruct (training_loop l2i (S epoch) b rest) as [later b']. simpl in *.
  rewrite IH. f_equal. unfold run_epoch in Hrun. unfold better.
  by destruct (Qlt_le_dec best (f1 r)); injection Hrun as _ <-.
Qed.

Lemma best_after_bounds best results :
  (best <= best_after best results)%Q /\
  Forall (fun r => (f1 r <= best_after best results)%Q) results /\
  (best_after best results = best \/
   exists r, r ∈ results /\ best_after best results = f1 r).
Proof.
  revert best. induction results as [|r rest IH]; intros best.
  - simpl. split; [apply Qle_refl|]. split; [done|by left].
  - change (best_after best (r :: rest)) with (best_after (better best r) rest).
    destruct (IH (better best r)) as (Hle & Hall & Hcase).
    assert (Hb : (best <= better best r)%Q /\ (f1 r <= better best r)%Q /\
                 (better best r = best \/ better best r = f1 r)).
    { unfold better. destruct (Qlt_le_dec best (f1 r)) as [Hlt|Hge].
      - split; [by apply Qlt_le_weak|]. split; [apply Qle_refl|by right].
      - split; [apply Qle_refl|]. split; [done|by left]. }
    destruct Hb as (Hb1 & Hb2 & Hb3).
    split; [by eapply Qle_trans|]. split.
    + constructor; [by eapply Qle_trans|done].
    + destruct Hcase as [->|(r' & Hin & ->)].
      * destruct Hb3 as [->| ->]; [by left|]. right. exists r. split; [by left|done].
      * right. exists r'. split; [by right|done].
Qed.

(** X8: The best F1 logged at the end is the largest F1 of the run, or 0.0 when
    no epoch measured more: it bounds every epoch's F1, and it is 0.0 or
    the F1 of one of the epochs. *)
Theorem reported_best_is_maximum data results :
  exists m best,
    finish (main data results) = [Save FinalModel m; Completed best] /\
    (0 <= best)%Q /\
    Forall (fun r => (f1 r <= best)%Q) results /\
    (best = 0%Q \/ exists r, r ∈ results /\ best = f1 r).
Proof.
  destruct (main_run data results) as (ids & _ & ->). cbn [finish].
  eexists _, _. split; [done|]. rewrite training_loop_best.
  apply best_after_bounds.
Qed.

(** When epoch [e] saves a best snapshot, told from the measurements. *)
Lemma epoch_saves_iff data results e res evs :
  results !! e = Some res -> epochs (main data results) !! e = Some evs ->
  (exists m, Save BestModel m ∈ evs) <->
  (0 < f1 res)%Q /\
  forall e' res', e' < e -> results !! e' = Some res' -> (f1 res' < f1 res)%Q.
Proof.
  destruct (main_run data results) as (ids & _ & ->). cbn [epochs].
  intros Hres Hevs.
  rewrite (training_loop_lookup _ _ _ _ _ _ Hres) in Hevs.
  injection Hevs as <-. rewrite run_epoch_saves, best_after_lt.
  apply and_iff_compat_l. rewrite Forall_lookup. split.
  - intros Hall e' res' He' Hres'. apply (Hall e' res').
    rewrite lookup_take_lt by done. done.
  - intros Hall e' res' Hres'. apply lookup_take_Some in Hres' as [? ?].
    by eapply Hall.
Qed.

Lemma epochs_lookup_results data results e :
  is_Some (epochs (main data results) !! e) <-> is_Some (results !! e).
Proof.
  destruct (main_run data results) as (ids & _ & ->). cbn [epochs].
  rewrite !lookup_lt_is_Some. by rewrite training_loop_length.
Qed.

(** X9: The epoch whose snapshot [best_model] holds at the end: epoch [e] is
    the last one to save a best snapshot exactly when its F1 is positive,
    above that of every earlier epoch and not below that of any epoch. *)
Theorem last_best_is_first_maximum data results e res evs :
  results !! e = Some res -> epochs (main data results) !! e = Some evs ->
  ((exists m, Save BestModel m ∈ evs) /\
   (forall e' evs', e < e' -> epochs (main data results) !! e' = Some evs' ->
                    ~ exists m, Save BestModel m ∈ evs'))
  <->
  ((0 < f1 res)%Q /\
   (forall e' res', e' < e -> results !! e' = Some res' -> (f1 res' < f1 res)%Q) /\
   (forall e' res', results !! e' = Some res' -> (f1 res' <= f1 res)%Q)).
Proof.
  intros Hres Hevs. rewrite (epoch_saves_iff data results e res evs Hres Hevs).
  split.
  - intros [[Hpos Hearlier] Hlater]. split; [done|]. split; [done|].
    intros e'. induction (lt_wf e') as [e' _ IH]. intros res' Hres'.
    destruct (Nat.lt_total e' e) as [Hlt|[Heq|Hgt]].
    + by apply Qlt_le_weak, (Hearlier e').
    + rewrite Heq in Hres'. assert (Hr : res' = res) by congruence.
      rewrite Hr. apply Qle_refl.
    + destruct (Qlt_le_dec (f1 res) (f1 res')) as [Hbig|]; [|done]. exfalso.
      destruct (proj2 (epochs_lookup_results data results e')) as [evs' Hevs'];
        [by eexists|].
      apply (Hlater e' evs' Hgt Hevs').
      apply (epoch_saves_iff data results e' res' evs' Hres' Hevs').
      split; [by transitivity (f1 res)|].
      intros e'' res'' Hlt'' Hres''.
      eapply Qle_lt_trans; [|exact Hbig]. by apply (IH e'').
  - intros (Hpos & Hearlier & Hmax). split; [done|].
    intros e' evs' Hgt Hevs' Hsave.
    destruct (proj1 (epochs_lookup_results data results e')) as [res' Hres'];
      [by eexists|].
    pose proof (proj1 (epoch_saves_iff data results e' res' evs' Hres' Hevs') Hsave)
      as [_ Hall].
    specialize (Hall e res Hgt Hres). specialize (Hmax e' res' Hres').
    by apply (Qlt_not_le _ _ Hall).
Qed.

(** X10: No best snapshot is ever saved exactly when no epoch measures a
    positive F1, in particular when there is no epoch; the directory
    [best_model] is then never written. *)
Theorem no_best_snapshot_iff data results :
  (forall m, Save BestModel m ∉ trace (main data results)) <->
  Forall (fun r => (f1 r <= 0)%Q) results.
Proof.
  split.
  - intros Hnone. apply Forall_lookup. intros e.
    induction (lt_wf e) as [e _ IH]. intros res Hres.
    destruct (Qlt_le_dec 0 (f1 res)) as [Hpos|]; [|done]. exfalso.
    destruct (proj2 (epochs_lookup_results data results e)) as [evs Hevs];
      [by eexists|].
    assert (Hsave : exists m, Save BestModel m ∈ evs).
    { apply (epoch_saves_iff data results e res evs Hres Hevs).
      split; [done|]. intros e' res' Hlt Hres'.
      eapply Qle_lt_trans; [|exact Hpos]. by apply (IH e'). }
    destruct Hsave as [m Hm]. apply (Hnone m). unfold trace.
    apply elem_of_app. right. apply elem_of_app. left.
    apply list_elem_of_join. exists evs. split; [done|].
    by eapply list_elem_of_lookup_2.
  - intros Hall m Hin. unfold trace in Hin.
    apply elem_of_app in Hin as [Hin|Hin].
    { destruct (main_run data results) as (ids & _ & Hmain). rewrite Hmain in Hin.
      cbn [setup] in Hin.
      repeat (apply elem_of_cons in Hin as [?|Hin]; [done|]).
      by apply elem_of_nil in Hin. }
    apply elem_of_app in Hin as [Hin|Hin].
    + apply list_elem_of_join in Hin as (evs & Hm & Hevs).
      apply list_elem_of_lookup in Hevs as [e Hevs].
      destruct (proj1 (epochs_lookup_results data results e)) as [res Hres];
        [by eexists|].
      assert (Hsave : exists m, Save BestModel m ∈ evs) by by exists m.
      pose proof (proj1 (epoch_saves_iff data results e res evs Hres Hevs) Hsave)
        as [Hpos _].
      rewrite Forall_lookup in Hall. specialize (Hall e res Hres).
      by apply (Qlt_not_le _ _ Hpos).
    + destruct (main_run data results) as (ids & _ & Hmain). rewrite Hmain in Hin.
      cbn [finish] in Hin. unfold save_model in Hin.
      repeat (apply elem_of_cons in Hin as [?|Hin]; [done|]).
      by apply elem_of_nil in Hin.
Qed.
End Trainer.

Lemma load_data_encodes_labels_witness :
  exists ds l2i u,
    load_data (H := first_seen string) sample_data = inr (ds, l2i, u) /\
    length (labels ds) = 3 /\ (length u = 0 <-> sample_data = []).
Proof.
  destruct (load_data_encodes_labels (H := first_seen string) sample_data)
    as (ds & l2i & u & Hload & _ & Hlen & _ & _ & _ & Hempty).
  exists ds, l2i, u. split; [exact Hload|]. split; [exact Hlen|exact Hempty].
Defined.

Lemma last_best_is_first_maximum_witness :
  exists m,
    Save BestModel m ∈
      [EpochStart 3; EpochTrained 3 (1 # 10); Scalar "Loss/train" (1 # 10) 2;
       EpochValidated 3 (4 # 5) (7 # 10); Scalar "Accuracy/val" (4 # 5) 2;
       Scalar "F1/val" (7 # 10) 2;
       Save (L := string) BestModel
         (saved_mapping [("translate", 0); ("detect", 1)])].
Proof.
  refine (proj1 (proj2 (last_best_is_first_maximum (H := first_seen string)
                          sample_data sample_results 2
                          (EpochResult (1 # 10) (4 # 5) (7 # 10))
                          [EpochStart 3; EpochTrained 3 (1 # 10);
                           Scalar "Loss/train" (1 # 10) 2;
                           EpochValidated 3 (4 # 5) (7 # 10);
                           Scalar "Accuracy/val" (4 # 5) 2;
                           Scalar "F1/val" (7 # 10) 2;
                           Save BestModel
                             (saved_mapping [("translate", 0); ("detect", 1)])]
                          eq_refl eq_refl) _)).
  split; [reflexivity|]. split.
  - intros e' res' He' Hres'.
    destruct e' as [|[|e']]; [| |lia]; vm_compute in Hres'; injection Hres' as <-;
      reflexivity.
  - intros e' res' Hres'.
    destruct e' as [|[|[|e']]]; vm_compute in Hres'; [| | |discriminate];
      injection Hres' as <-; vm_compute; discriminate.
Defined.

Lemma no_best_snapshot_iff_witness :
  Save BestModel (saved_mapping [("translate", 0); ("detect", 1)]) ∉
    trace (main (H := first_seen string) sample_data [EpochResult (1 # 2) 0 0]).
Proof.
  apply (proj2 (no_best_snapshot_iff (H := first_seen string) sample_data
                  [EpochResult (1 # 2) 0 0])).
  repeat constructor. vm_compute. discriminate.
Defined.

End TrainMore.

(** ** The predictor *)

Module PredictMore.
Import Py Train Predict TrainFacts PredictFacts.

Lemma digit_char_facts c :
  is_Some (digit_val c) ->
  is_space c = false /\ (code c =? 95)%N = false /\
  (code c =? 43)%N = false /\ (code c =? 45)%N = false.
Proof.
  destruct c as [[] [] [] [] [] [] [] []]; vm_compute; intros [? ?]; done.
Qed.

Lemma pretty_char_digit x :
  (x < 10)%N -> digit_val (pretty_N_char x) = Some (Z.of_N x).
Proof.
  intros Hx. rewrite <- (N2Nat.id x).
  assert (Hn : N.to_nat x < 10) by lia. revert Hn. generalize (N.to_nat x).
  intros n Hn. do 10 (destruct n as [|n]; [reflexivity|]). lia.
Qed.

Lemma strip_no_space s : no_space s = true -> strip s = s.
Proof.
  intros Hs. unfold strip.
  assert (Hl : lstrip s = s).
  { destruct s as [|c s]; [done|]. simpl in *.
    apply andb_true_iff in Hs as [Hc _]. apply negb_true_iff in Hc. by rewrite Hc. }
  rewrite Hl. induction s as [|c s IH]; [done|].
  simpl in Hs. apply andb_true_iff in Hs as [Hc Hs]. apply negb_true_iff in Hc.
  rewrite PyFacts.rstrip_nonspace by done. f_equal. apply IH; [done|].
  destruct s as [|c' s]; [done|]. simpl in *.
  apply andb_true_iff in Hs as [Hc' _]. apply negb_true_iff in Hc'. by rewrite Hc'.
Qed.

Lemma digits_no_space s : digits_only s = true -> no_space s = true.
Proof.
  induction s as [|c s IH]; [done|]. simpl.
  intros [Hc Hs]%andb_true_iff. apply bool_decide_eq_true in Hc.
  destruct (digit_char_facts c Hc) as (-> & _). simpl. by apply IH.
Qed.

(** On a string of digits [int] just reads the digits. *)
Lemma py_int_digits s : digits_only s = true -> py_int s = parse_digits 0 false s.
Proof.
  intros Hs. unfold py_int. rewrite strip_no_space by by apply digits_no_space.
  destruct s as [|c s]; [done|]. simpl in Hs.
  apply andb_true_iff in Hs as [Hc _]. apply bool_decide_eq_true in Hc.
  destruct (digit_char_facts c Hc) as (_ & _ & -> & ->). done.
Qed.

Lemma parse_digits_step acc b x s :
  (x < 10)%N ->
  parse_digits acc b (String (pretty_N_char x) s)
    = parse_digits (10 * acc + Z.of_N x) true s.
Proof.
  intros Hx. cbn [parse_digits].
  pose proof (pretty_char_digit x Hx) as Hd.
  destruct (digit_char_facts (pretty_N_char x)) as (_ & -> & _); [by eexists|].
  by rewrite Hd.
Qed.

Lemma parse_pretty_go x :
  (0 < x)%N ->
  exists k : Z, (0 <= k)%Z /\ forall acc b s,
    parse_digits acc b (pretty_N_go x s)
      = parse_digits (acc * 10 ^ k + Z.of_N x) true s.
Proof.
  induction (N.lt_wf_0 x) as [x _ IH]. intros Hx.
  assert (Hmod : (x `mod` 10 < 10)%N) by (apply N.mod_lt; lia).
  destruct (decide (x `div` 10 = 0)%N) as [Hz|Hnz].
  - exists 1%Z. split; [lia|]. intros acc b s.
    rewrite pretty_N_go_step, Hz, pretty_N_go_0 by done.
    rewrite parse_digits_step by done. f_equal.
    pose proof (N.div_mod x 10 ltac:(lia)) as Hdm.
    rewrite Hz, N.mul_0_r, N.add_0_l in Hdm. rewrite <- Hdm.
    change (10 ^ 1)%Z with 10%Z. ring.
  - destruct (IH (x `div` 10)%N) as (k & Hk & Hgo).
    { apply N.div_lt; lia. }
    { by apply N.neq_0_lt_0. }
    exists (k + 1)%Z. split; [lia|]. intros acc b s.
    rewrite pretty_N_go_step, Hgo by done.
    rewrite parse_digits_step by done. f_equal.
    pose proof (N.div_mod x 10 ltac:(lia)) as Hdm.
    assert (Hx' : Z.of_N x = (10 * Z.of_N (x `div` 10) + Z.of_N (x `mod` 10))%Z).
    { rewrite Hdm at 1. by rewrite N2Z.inj_add, N2Z.inj_mul. }
    rewrite Hx', Z.pow_add_r, Z.pow_1_r by lia. ring.
Qed.

Lemma digits_only_pretty_go x s :
  digits_only s = true -> digits_only (pretty_N_go x s) = true.
Proof.
  revert s. induction (N.lt_wf_0 x) as [x _ IH]. intros s Hs.
  destruct (decide (0 < x)%N) as [Hx|Hx].
  - rewrite pretty_N_go_step by done. apply IH; [apply N.div_lt; lia|].
    simpl. rewrite Hs, andb_true_r. apply bool_decide_eq_true.
    rewrite pretty_char_digit; [by eexists|]. apply N.mod_lt. lia.
  - replace x with 0%N by lia. by rewrite pretty_N_go_0.
Qed.

Lemma parse_pretty_N (x : N) :
  digits_only (pretty x) = true /\
  parse_digits 0 false (pretty x) = Some (Z.of_N x).
Proof.
  unfold pretty, pretty_N.
  destruct (decide (x = 0)%N) as [->|Hnz]; [done|].
  split; [by apply digits_only_pretty_go|].
  destruct (parse_pretty_go x) as (k & _ & ->); [by apply N.neq_0_lt_0|].
  simpl; f_equal; lia.
Qed.

Lemma int_of_str_round_trip_nat (n : nat) : py_int (pretty n) = Some (Z.of_nat n).
Proof.
  unfold pretty, pretty_nat.
  destruct (parse_pretty_N (N.of_nat n)) as [Hd Hp].
  rewrite py_int_digits, Hp by done. f_equal. lia.
Qed.



Lemma load_saved_keys (u : list string) k :
  mapM (fun kv : string * string => (fun z => (z, kv.2)) <$> py_int kv.1)
       (imap (fun i l => (pretty (k + i), l)) u)
  = Some (imap (fun i l => (Z.of_nat (k + i), l)) u).
Proof.
  revert k. induction u as [|l u IH]; intros k; [done|].
  rewrite !imap_cons. cbn [mapM]. simpl fst. simpl snd.
  rewrite int_of_str_round_trip_nat. simpl.
  rewrite (imap_ext _ (fun i l => (pretty (S k + i), l)))
    by (intros; simpl; by rewrite Nat.add_succ_r).
  rewrite IH. simpl.
  f_equal. f_equal. apply imap_ext. intros. simpl. by rewrite Nat.add_succ_r.
Qed.

Lemma loaded_keys (u : list string) :
  (imap (fun i l => (Z.of_nat i, l)) u).*1 = Z.of_nat <$> seq 0 (length u).
Proof.
  rewrite fmap_imap. rewrite (imap_ext _ (fun i _ => Z.of_nat i)) by done.
  apply imap_seq_0.
Qed.

(** What the predictor loads from a mapping file the trainer wrote. *)
Lemma load_saved_mapping (u : list string) :
  load_id_to_label (imap (fun i l => (pretty i, l)) u)
    = inr (imap (fun i l => (Z.of_nat i, l)) u) /\
  forall i l, dict_get (imap (fun i l => (Z.of_nat i, l)) u) (Z.of_nat i) = Some l
              <-> u !! i = Some l.
Proof.
  assert (Hnd : NoDup (imap (fun i (l : string) => (Z.of_nat i, l)) u).*1).
  { rewrite loaded_keys. apply NoDup_fmap_2; [apply _|apply NoDup_seq]. }
  split.
  - unfold load_id_to_label.
    rewrite (imap_ext _ (fun i l => (pretty (0 + i), l)) u) by done.
    rewrite (load_saved_keys u 0).
    rewrite (imap_ext _ (fun i l => (Z.of_nat i, l)) u) by done.
    by rewrite dict_comp_NoDup.
  - intros i l. rewrite dict_get_elem by done.
    rewrite elem_of_lookup_imap. split.
    + intros (j & y & [= Hj ->] & Hy). by apply Nat2Z.inj in Hj as <-.
    + intros Hi. by exists i, l.
Qed.

Lemma predict_outcome self query :
  match model self query with
  | [] => predict self query = inl RuntimeError
  | _ =>
      exists i p, argmax (softmax (model self query)) = Some i /\
        softmax (model self query) !! i = Some p /\
        (forall j w, softmax (model self query) !! j = Some w -> (w <= p)%R) /\
        predict self query =
          match dict_get (id_to_label self) (Z.of_nat i) with
          | Some task => inr (Prediction task p)
          | None => inl KeyError
          end
  end.
Proof.
  unfold predict. destruct (model self query) as [|x l] eqn:Hm; [done|].
  destruct (argmax_spec (softmax (x :: l))) as (i & p & Hi & Hp & Hmax & _); [done|].
  exists i, p. rewrite Hi, Hp. done.
Qed.

(** X12: A bundle saved by the trainer can be loaded, and the loaded table has a
    label for every class id of the model: on a row of [num_labels] logits
    [predict] returns one of the labels of the training data, and never
    raises [KeyError]. *)
Theorem trained_bundle_predicts `{SetOrder string} (data : list (sample string))
    ds l2i u :
  load_data data = inr (ds, l2i, u) ->
  exists table,
    load_id_to_label (Train.id_to_label (saved_mapping l2i)) = inr table /\
    (forall i l, dict_get table (Z.of_nat i) = Some l <-> dict_get l2i l = Some i) /\
    forall model query,
      model query <> [] -> length (model query) = length u ->
      exists task confidence,
        predict (Classifier model table) query = inr (Prediction task confidence) /\
        task ∈ label <$> data.
Proof.
  intros Hload. destruct (load_data_ok data) as (ids & Hload' & _).
  rewrite Hload in Hload'. injection Hload' as -> -> ->.
  set (u := list_of_set (label <$> data)).
  pose proof (list_of_set_NoDup (label <$> data)) as Hnd. fold u in Hnd.
  unfold saved_mapping. cbn [Train.id_to_label]. rewrite id_to_label_enumerate.
  destruct (load_saved_mapping u) as [Htable Hget].
  eexists. split; [exact Htable|]. split.
  { intros i l. rewrite Hget. symmetry. by apply dict_get_label_to_id. }
  intros model query Hne Hlen.
  pose proof (predict_outcome
                (Classifier model (imap (fun i l => (Z.of_nat i, l)) u)) query) as Hout.
  cbn [Predict.model id_to_label] in Hout.
  destruct (model query) as [|x logits] eqn:Hm; [done|].
  destruct Hout as (i & p & Hi & Hp & _ & Hpred).
  assert (Hlt : i < length u).
  { rewrite <- Hlen, <- softmax_length. by eapply lookup_lt_Some. }
  destruct (lookup_lt_is_Some_2 u i Hlt) as [task Htask].
  exists task, p. rewrite Hpred, (proj2 (Hget i task) Htask). split; [done|].
  apply (list_of_set_elem _ task). fold u. by eapply list_elem_of_lookup_2.
Qed.

(** X13: on a row of logits that is not empty, [predict] raises [KeyError]
    exactly when the class of the largest probability has no entry in
    [id_to_label]; otherwise it returns, and it raises nothing else. *)
Theorem predict_errors self query :
  model self query <> [] ->
  (predict self query = inl KeyError <->
   exists i, argmax (softmax (model self query)) = Some i /\
             dict_get (id_to_label self) (Z.of_nat i) = None) /\
  (forall e, predict self query = inl e -> e = KeyError) /\
  ((exists i task, argmax (softmax (model self query)) = Some i /\
                   dict_get (id_to_label self) (Z.of_nat i) = Some task) ->
   exists task confidence, predict self query = inr (Prediction task confidence)).
Proof.
  intros Hne. pose proof (predict_outcome self query) as Hout.
  destruct (model self query) as [|x l] eqn:Hm; [done|].
  destruct Hout as (i & p & Hi & Hp & _ & Hpred). rewrite Hpred.
  destruct (dict_get (id_to_label self) (Z.of_nat i)) as [task|] eqn:Hget.
  - split; [|split; [done|]].
    + split; [done|]. intros (j & Hj & Hnone). congruence.
    + intros _. by eexists _, _.
  - split; [|split].
    + split; [|done]. intros _. by exists i.
    + by intros e [= <-].
    + intros (j & task & Hj & Htask). congruence.
Qed.

Local Open Scope R_scope.








Lemma trained_bundle_predicts_witness :
  exists table,
    load_id_to_label
      (Train.id_to_label (saved_mapping [("translate"%string, 0%nat); ("detect"%string, 1%nat)]))
      = inr table.
Proof.
  destruct (trained_bundle_predicts (H := first_seen string) sample_data
              (Dataset ["find roads"; "hola"; "count trees"]%string [1; 0; 1]%nat)
              [("translate"%string, 0%nat); ("detect"%string, 1%nat)]
              ["translate"; "detect"]%string)
    as (table & Hload & _).
  - vm_compute. reflexivity.
  - exists table. exact Hload.
Defined.

Lemma predict_errors_witness :
  predict (Classifier (fun _ => [0%R]) []) "hello" = inl KeyError.
Proof.
  destruct (predict_errors (Classifier (fun _ => [0%R]) []) "hello") as (Hkey & _).
  - discriminate.
  - apply Hkey. exists 0%nat. split; reflexivity.
Defined.


End PredictMore.

(** ** The box-drawing script *)

Module DrawBoxesMore.
Import Py DrawBoxes.

Lemma draw_loop_well_formed f boxes labels scores :
  Forall (fun b => length b = 4) boxes ->
  (draw_loop f boxes labels scores).2 = Returned /\
  length (draw_loop f boxes labels scores).1
    = 2 * (length boxes `min` (length labels `min` length scores)) /\
  Forall (fun op => is_save_image op = false) (draw_loop f boxes labels scores).1.
Proof.
  intros Hall. revert labels scores.
  induction Hall as [|b boxes Hb _ IH]; intros labels scores; [done|].
  destruct labels as [|l labels]; [done|]. destruct scores as [|s scores]; [done|].
  destruct b as [|a1 [|a2 [|a3 [|a4 [|??]]]]]; try done.
  cbn [draw_loop]. destruct (IH labels scores) as (Hst & Hlen & Hns).
  destruct (draw_loop f boxes labels scores) as [ops st]. simpl in *.
  split; [done|]. split; [rewrite Hlen; lia|]. by repeat constructor.
Qed.

(** X15: With four coordinates in every box the script draws two operations for
    each triple that [zip] yields, as many as the shortest of the three
    lists holds, silently ignoring the rest, and then saves the image
    once, as its last operation. *)
Theorem draw_truncates_to_shortest arial out path :
  Forall (fun b => length b = 4) (boxes out) ->
  exists ops,
    draw arial out path = (ops ++ [SaveImage path], Returned) /\
    length ops = 2 * (length (boxes out) `min`
                        (length (labels out) `min` length (scores out))) /\
    Forall (fun op => is_save_image op = false) ops.
Proof.
  intros Hall. unfold draw.
  destruct (draw_loop_well_formed (if arial then Arial16 else Default16)
              (boxes out) (labels out) (scores out) Hall) as (Hst & Hlen & Hns).
  destruct (draw_loop _ _ _ _) as [ops st]. simpl in *. subst st.
  by exists ops.
Qed.

Lemma draw_loop_bad_box f pre bad post labels scores :
  Forall (fun b => length b = 4) pre -> length bad <> 4 ->
  length pre < length labels -> length pre < length scores ->
  draw_loop f (pre ++ bad :: post) labels scores
    = ((draw_loop f pre (take (length pre) labels) (take (length pre) scores)).1,
       Raised ValueError).
Proof.
  intros Hpre Hbad. revert labels scores.
  induction Hpre as [|b pre Hb _ IH]; intros labels scores Hl Hs.
  - destruct labels as [|l labels]; [simpl in Hl; lia|].
    destruct scores as [|s scores]; [simpl in Hs; lia|].
    simpl. by destruct bad as [|a1 [|a2 [|a3 [|a4 [|??]]]]].
  - destruct labels as [|l labels]; [simpl in Hl; lia|].
    destruct scores as [|s scores]; [simpl in Hs; lia|].
    destruct b as [|a1 [|a2 [|a3 [|a4 [|??]]]]]; try done.
    simpl in Hl, Hs.
    cbn [app length take draw_loop]. rewrite IH by lia.
    by destruct (draw_loop f pre _ _).
Qed.

(** X16: A box without exactly four coordinates, reached by the loop, stops the
    script with a [ValueError]: the triples before it have been drawn, two
    operations each, and the image is not saved. *)
Theorem malformed_box_raises arial out path pre bad post :
  boxes out = pre ++ bad :: post ->
  Forall (fun b => length b = 4) pre -> length bad <> 4 ->
  length pre < length (labels out) -> length pre < length (scores out) ->
  exists ops,
    draw arial out path = (ops, Raised ValueError) /\
    length ops = 2 * length pre /\
    Forall (fun op => is_save_image op = false) ops.
Proof.
  intros Hboxes Hpre Hbad Hl Hs. unfold draw. rewrite Hboxes.
  rewrite draw_loop_bad_box by done.
  destruct (draw_loop_well_formed (if arial then Arial16 else Default16) pre
              (take (length pre) (labels out)) (take (length pre) (scores out)) Hpre)
    as (_ & Hlen & Hns).
  eexists. split; [done|]. split; [|done].
  rewrite Hlen, !length_take. lia.
Qed.

(** The integer [round_half_even] picks is within one half of the scaled
    value. *)
Lemma round_half_even_near num p :
  (0 <= num)%Z ->
  let n := round_half_even num (Zneg p) in
  (0 <= n)%Z /\ (Z.abs (2 * (n * Zpos (2 ^ p) - num)) <= Zpos (2 ^ p))%Z.
Proof.
  intros Hnum n. subst n. unfold round_half_even.
  set (d := Zpos (2 ^ p)).
  assert (Hd : (0 < d)%Z) by done.
  pose proof (Z.div_mod num d ltac:(lia)) as Hdm.
  pose proof (Z.mod_pos_bound num d Hd) as Hmod.
  assert (Hq : (0 <= num / d)%Z) by (apply Z.div_pos; lia).
  destruct (Z.compare_spec (2 * (num mod d)) d) as [Heq|Hlt|Hgt].
  - destruct (Z.even (num / d)); split; nia.
  - split; nia.
  - split; nia.
Qed.

(** X17: a finite score is printed as its sign and the digits of an
    integer number of hundredths that is within one half of a hundredth of
    the score's magnitude: the text is off by at most 0.005. *)
Theorem format_2f_within_half_cent s m e :
  exists n : Z,
    format_2f (S754_finite s m e)
      = ((if s then "-" else "") ++ pretty (n / 100)%Z ++ "."
         ++ two_digits (n mod 100))%string /\
    (0 <= n)%Z /\
    match float_value (S754_finite false m e) with
    | Some v => (Qabs (inject_Z n - 100 * v) <= 1 # 2)%Q
    | None => False
    end.
Proof.
  exists (round_half_even (100 * Zpos m) e). split; [done|].
  cbn [float_value cond_Zopp].
  destruct e as [|p|p].
  - cbn [round_half_even]. split; [lia|].
    apply Qabs_Qle_condition. unfold Qle, Qminus, Qplus, Qmult, Qopp, inject_Z.
    simpl Qnum. simpl Qden. rewrite Z.pow_0_r. split; lia.
  - cbn [round_half_even]. split; [lia|].
    apply Qabs_Qle_condition. unfold Qle, Qminus, Qplus, Qmult, Qopp, inject_Z.
    simpl Qnum. simpl Qden.
    generalize (Z.pos m * 2 ^ Z.pos p)%Z (Z.pos m) (2 ^ Z.pos p)%Z.
    intros a b c. split; nia.
  - destruct (round_half_even_near (100 * Zpos m) p ltac:(lia)) as [Hn Hnear].
    split; [done|].
    set (n := round_half_even (100 * Z.pos m) (Z.neg p)) in *.
    apply Qabs_Qle_condition. unfold Qle, Qminus, Qplus, Qmult, Qopp, inject_Z.
    simpl Qnum. simpl Qden.
    split; lia.
Qed.


Lemma draw_truncates_to_shortest_witness :
  exists ops,
    draw false (ModelOutput [example_score] [example_box; example_box]
                            ["tree"; "tree"; "tree"]) "out.png"
      = (ops ++ [SaveImage "out.png"], Returned) /\
    length ops = 2.
Proof.
  destruct (draw_truncates_to_shortest false
              (ModelOutput [example_score] [example_box; example_box]
                           ["tree"; "tree"; "tree"]) "out.png")
    as (ops & Hdraw & Hlen & _).
  - by repeat constructor.
  - exists ops. split; [exact Hdraw|exact Hlen].
Defined.

Lemma malformed_box_raises_witness :
  exists ops,
    draw true (ModelOutput [example_score; example_score]
                           [example_box; take 3 example_box]
                           ["tree"; "tree"]) "out.png"
      = (ops, Raised ValueError) /\
    length ops = 2.
Proof.
  destruct (malformed_box_raises true
              (ModelOutput [example_score; example_score]
                           [example_box; take 3 example_box]
                           ["tree"; "tree"]) "out.png"
              [example_box] (take 3 example_box) [])
    as (ops & Hdraw & Hlen & _).
  - reflexivity.
  - by repeat constructor.
  - simpl. lia.
  - simpl. lia.
  - simpl. lia.
  - exists ops. split; [exact Hdraw|exact Hlen].
Defined.

End DrawBoxesMore.

(** ** The data preparer feeding the trainer *)

Module PipelineMore.
Import Py TrainFacts PrepareDataFacts.

(** X18: when the trainer is run on a file the data preparer wrote, every
    label it sees is an index into the configured label list, so the
    number of classes of the model is at most the number of configured
    labels. *)
Theorem pipeline_classes_bounded `{PrepareData.Rng G} `{Train.SetOrder nat}
    (g : G) path dir raw cfg task_labels f content ds l2i u :
  PrepareData.written f
    (PrepareData.trace (PrepareData.prepare_data g path dir (Some raw) cfg task_labels))
    = Some content ->
  Train.load_data
    ((fun r => Train.Sample (PrepareData.text r) (PrepareData.label r)) <$> content)
    = inr (ds, l2i, u) ->
  Forall (fun l => l < length task_labels) u /\
  length u <= length task_labels.
Proof.
  intros Hw Hload.
  destruct (load_data_ok
              ((fun r => Train.Sample (PrepareData.text r) (PrepareData.label r))
                 <$> content)) as (ids & Hload' & _).
  rewrite Hload in Hload'. injection Hload' as _ _ ->.
  assert (Hall : forall l,
             l ∈ Train.list_of_set
                   (Train.label <$>
                      ((fun r => Train.Sample (PrepareData.text r) (PrepareData.label r))
                         <$> content)) ->
             l < length task_labels).
  { intros l Hl. apply (proj1 (Train.list_of_set_elem _ _)) in Hl.
    apply list_elem_of_fmap in Hl as (s & -> & Hs).
    apply list_elem_of_fmap in Hs as (r & -> & Hr). simpl.
    destruct (PrepareDataMore.written_record_item g path dir raw cfg task_labels
                f content r Hw Hr) as (item & q & t & _ & _ & _ & _ & Hl & _).
    by eapply lookup_lt_Some. }
  split; [by apply Forall_forall|].
  match goal with |- length ?u <= _ =>
    assert (Hle : length u <= length (seq 0 (length task_labels)))
  end.
  { apply submseteq_length, NoDup_submseteq; [apply Train.list_of_set_NoDup|].
    intros l Hl. apply elem_of_seq. specialize (Hall l Hl). lia. }
  by rewrite length_seq in Hle.
Qed.

Lemma pipeline_classes_bounded_witness :
  exists u : list nat, length u <= length PrepareData.example_labels.
Proof.
  destruct (Train.load_data (H := Train.first_seen nat)
              ((fun r => Train.Sample (PrepareData.text r) (PrepareData.label r))
                 <$> [PrepareData.Record_ "count the trees" 1;
                      PrepareData.Record_ "x" 1;
                      PrepareData.Record_ "bonjour" 0;
                      PrepareData.Record_ "find all roads" 1]))
    as [e|[[ds l2i] u]] eqn:Hload; [vm_compute in Hload; discriminate|].
  exists u.
  apply (pipeline_classes_bounded (H := PrepareData.lcg) (H0 := Train.first_seen nat)
           0 "queries.json" "processed" PrepareData.sample_raw
           PrepareData.example_cfg PrepareData.example_labels
           PrepareData.TrainJson
           [PrepareData.Record_ "count the trees" 1;
            PrepareData.Record_ "x" 1;
            PrepareData.Record_ "bonjour" 0;
            PrepareData.Record_ "find all roads" 1] ds l2i u);
    [vm_compute; reflexivity|exact Hload].
Defined.

End PipelineMore.
